(** * Name generator: weighted sampling and threshold fallback

    A shallow embedding of [src/name_generator/generator.py] and the
    properties of its name store accessor, weighted sampler, ethnicity
    resolver and name composer.

    Modelling conventions.
    - Python floats (probabilities, thresholds, weights, the value of
      [random.random()]) are rationals of [Q]: comparisons and arithmetic
      are exact, NaN and infinities are left out.
    - Python strings are [string]; [int] is [Z].
    - The methods of [NameGenerator] are computations of the monad [M]:
      they read an environment (the database file on disk and the
      pseudo-random source), thread the generator's state (the lazily
      opened connection, the number of random draws consumed so far and the
      list of SQL queries issued so far) and either return a value or raise
      a Python exception.
    - [random.choices] and [bisect.bisect_right] of the Python standard
      library are embedded from CPython (3.9 and later). *)

From Stdlib Require Import QArith Qround Qminmax ZArith String List Bool Lia Lqa.
Import ListNotations.

Local Open Scope string_scope.
Local Open Scope Q_scope.

(** ** Enumerations *)

(** [Gender.ANY] is [GENDER_ANY] here: the two enumerations of the source
    share the member name. *)
Inductive Gender := MALE | FEMALE | GENDER_ANY.

Definition gender_value (g : Gender) : string :=
  match g with
  | MALE => "M"
  | FEMALE => "F"
  | GENDER_ANY => "ANY"
  end.

Inductive Ethnicity := WHITE | BLACK | HISPANIC | ASIAN | OTHER | ANY.

Definition ethnicity_value (e : Ethnicity) : string :=
  match e with
  | WHITE => "white"
  | BLACK => "black"
  | HISPANIC => "hispanic"
  | ASIAN => "asian"
  | OTHER => "other"
  | ANY => "any"
  end.

(** [Ethnicity(s)]: the enumeration member whose value is [s], if any. *)
Definition ethnicity_of_value (s : string) : option Ethnicity :=
  if s =? "white" then Some WHITE
  else if s =? "black" then Some BLACK
  else if s =? "hispanic" then Some HISPANIC
  else if s =? "asian" then Some ASIAN
  else if s =? "other" then Some OTHER
  else if s =? "any" then Some ANY
  else None.

Definition Ethnicity_eqb (a b : Ethnicity) : bool :=
  match a, b with
  | WHITE, WHITE | BLACK, BLACK | HISPANIC, HISPANIC
  | ASIAN, ASIAN | OTHER, OTHER | ANY, ANY => true
  | _, _ => false
  end.

Definition Gender_eqb (a b : Gender) : bool :=
  match a, b with
  | MALE, MALE | FEMALE, FEMALE | GENDER_ANY, GENDER_ANY => true
  | _, _ => false
  end.

(** ** Records *)

Record NameRecord := mkNameRecord {
  name : string;
  gender : option string;
  count : Z;
  prob_white : Q;
  prob_black : Q;
  prob_hispanic : Q;
  prob_asian : Q;
  prob_other : Q
}.

(** [getattr(record, f"prob_{ethnicity}")]: defined for the five concrete
    categories only. *)
Definition prob_attr (ethnicity : string) : option (NameRecord -> Q) :=
  if ethnicity =? "white" then Some prob_white
  else if ethnicity =? "black" then Some prob_black
  else if ethnicity =? "hispanic" then Some prob_hispanic
  else if ethnicity =? "asian" then Some prob_asian
  else if ethnicity =? "other" then Some prob_other
  else None.

(** A distribution is a Python dict from category names to weights, kept
    in insertion order. *)
Definition Distribution := list (string * Q).

Definition DEFAULT_ETHNIC_DISTRIBUTION : Distribution :=
  [ ("white", 0.60); ("hispanic", 0.18); ("black", 0.13);
    ("asian", 0.06); ("other", 0.03) ].

(** ** The name tables

    Both tables hold the columns name, count and prob_white .. prob_other;
    only [first_names] has a gender column (TEXT, nullable). *)

Record Row := mkRow {
  row_name : string;
  row_gender : option string;
  row_count : Z;
  row_prob_white : Q;
  row_prob_black : Q;
  row_prob_hispanic : Q;
  row_prob_asian : Q;
  row_prob_other : Q
}.

Record Table := mkTable {
  has_gender_column : bool;
  table_rows : list Row
}.

Record Database := mkDatabase {
  first_names : option Table;
  surnames : option Table
}.

Definition lookup_table (db : Database) (table : string) : option Table :=
  if table =? "first_names" then first_names db
  else if table =? "surnames" then surnames db
  else None.

(** The column [prob_<ethnicity>] of a row, for the names the schema
    has.  (SQLite compares column names without regard to case; the
    requests studied here carry the values of the enumeration or the keys
    of the distribution as they are.) *)
Definition prob_column (ethnicity : string) : option (Row -> Q) :=
  if ethnicity =? "white" then Some row_prob_white
  else if ethnicity =? "black" then Some row_prob_black
  else if ethnicity =? "hispanic" then Some row_prob_hispanic
  else if ethnicity =? "asian" then Some row_prob_asian
  else if ethnicity =? "other" then Some row_prob_other
  else None.

(** The statement
    [SELECT * FROM <table> WHERE prob_<ethnicity> >= ? [AND gender = ?]]
    together with its parameters. *)
Record Query := mkQuery {
  q_table : string;
  q_ethnicity : string;
  q_min_probability : Q;
  q_gender : option string
}.

(** ** Exceptions *)

Inductive exn :=
| FileNotFoundError (msg : string)
| ValueError (msg : string)
| IndexError (msg : string)
| AttributeError (msg : string)
| OperationalError (msg : string).

Inductive ExnClass :=
  CFileNotFoundError | CValueError | CIndexError | CAttributeError
| COperationalError.

Definition exn_class (e : exn) : ExnClass :=
  match e with
  | FileNotFoundError _ => CFileNotFoundError
  | ValueError _ => CValueError
  | IndexError _ => CIndexError
  | AttributeError _ => CAttributeError
  | OperationalError _ => COperationalError
  end.

Definition exn_message (e : exn) : string :=
  match e with
  | FileNotFoundError m | ValueError m | IndexError m
  | AttributeError m | OperationalError m => m
  end.

Inductive Outcome (A : Type) :=
| Ok (a : A)
| Raise (e : exn).

Arguments Ok {A} a.
Arguments Raise {A} e.

(** ** Environment, state and the monad *)

Record Env := mkEnv {
  db_path : string;
  (** contents of the file at [db_path]; [None] when no such file exists *)
  disk : option Database;
  (** the successive values of [random.random()] *)
  rng : nat -> Q
}.

Record State := mkState {
  _conn : option Database;
  draws : nat;
  queries : list Query
}.

Definition M (A : Type) : Type := Env -> State -> Outcome A * State.

Definition ret {A} (a : A) : M A := fun _ st => (Ok a, st).

Definition raise {A} (e : exn) : M A := fun _ st => (Raise e, st).

Definition bind {A B} (m : M A) (k : A -> M B) : M B :=
  fun env st =>
    match m env st with
    | (Ok a, st') => k a env st'
    | (Raise e, st') => (Raise e, st')
    end.

Notation "x <- m ;; k" := (bind m (fun x => k))
  (at level 61, m at next level, right associativity).

Definition run {A} (m : M A) (env : Env) (st : State) : Outcome A * State :=
  m env st.

(** [random.random()]: the next value of the source. *)
Definition random : M Q :=
  fun env st =>
    (Ok (rng env (draws st)),
     mkState (_conn st) (S (draws st)) (queries st)).

Definition database_not_found (env : Env) : exn :=
  FileNotFoundError
    ("Database not found at " ++ db_path env ++
     ". Run 'python -m name_generator.data_loader' to download and set up data.").

(** The [conn] property: the connection is opened on first use, and only
    when the database file exists. *)
Definition conn : M Database :=
  fun env st =>
    match _conn st with
    | Some db => (Ok db, st)
    | None =>
        match disk env with
        | None =>
            (Raise (database_not_found env), st)
        | Some db => (Ok db, mkState (Some db) (draws st) (queries st))
        end
    end.

(** The database a query reaches: the open connection, else the file. *)
Definition reachable (env : Env) (st : State) : option Database :=
  match _conn st with
  | Some db => Some db
  | None => disk env
  end.

(** ** SQLite: running a query *)

Definition row_matches (col : Row -> Q) (q : Query) (row : Row) : bool :=
  Qle_bool (q_min_probability q) (col row) &&
  match q_gender q with
  | None => true
  | Some g =>
      match row_gender row with
      | Some s => s =? g
      | None => false
      end
  end.

(** What SQLite answers: the selected rows, with the column set of their
    table.  Names that are not a table or a column of the schema are
    reported as such. *)
Definition sqlite_execute (db : Database) (q : Query) : Outcome Table :=
  match lookup_table db (q_table q) with
  | None => Raise (OperationalError ("no such table: " ++ q_table q))
  | Some t =>
      match prob_column (q_ethnicity q) with
      | None =>
          Raise (OperationalError ("no such column: prob_" ++ q_ethnicity q))
      | Some col =>
          if match q_gender q with
             | Some _ => negb (has_gender_column t)
             | None => false
             end
          then Raise (OperationalError "no such column: gender")
          else Ok (mkTable (has_gender_column t)
                           (filter (row_matches col q) (table_rows t)))
      end
  end.

(** [self.conn.execute(query, params)] followed by [fetchall()]. *)
Definition execute (q : Query) : M Table :=
  db <- conn ;;
  fun _ st =>
    (sqlite_execute db q,
     mkState (_conn st) (draws st) (queries st ++ [q])).

(** ** The standard library: [bisect.bisect_right] and [random.choices] *)

Fixpoint Qsum (l : list Q) : Q :=
  match l with
  | [] => 0
  | x :: l' => x + Qsum l'
  end.

Definition Qlt_bool (x y : Q) : bool := negb (Qle_bool y x).

Fixpoint accumulate_from (acc : Q) (ws : list Q) : list Q :=
  match ws with
  | [] => []
  | w :: ws' => (acc + w) :: accumulate_from (acc + w) ws'
  end.

(** [itertools.accumulate]: the running sums. *)
Definition accumulate (ws : list Q) : list Q :=
  match ws with
  | [] => []
  | w :: ws' => w :: accumulate_from w ws'
  end.

(** The loop of [bisect_right(a, x, lo, hi)]; [hi - lo] iterations are
    enough since every iteration shrinks the interval. *)
Fixpoint bisect_loop (fuel : nat) (a : list Q) (x : Q) (lo hi : nat) : nat :=
  match fuel with
  | O => lo
  | S fuel' =>
      if (lo <? hi)%nat then
        let mid := ((lo + hi) / 2)%nat in
        if Qlt_bool x (nth mid a 0) then bisect_loop fuel' a x lo mid
        else bisect_loop fuel' a x (S mid) hi
      else lo
  end.

Definition bisect_right (a : list Q) (x : Q) (lo hi : nat) : nat :=
  bisect_loop (hi - lo) a x lo hi.

(** [random.choices(population, weights=weights, k=1)[0]]. *)
Definition choices {A} (population : list A) (weights : list Q) : M A :=
  let n := length population in
  let cum_weights := accumulate weights in
  if negb (length cum_weights =? n)%nat then
    raise (ValueError "The number of weights does not match the population")
  else
    match nth_error cum_weights (length cum_weights - 1) with
    | None => raise (IndexError "list index out of range")
    | Some total =>
        if Qle_bool total 0 then
          raise (ValueError "Total of weights must be greater than zero")
        else
          u <- random ;;
          match nth_error population
                  (bisect_right cum_weights (u * total) 0 (n - 1)) with
          | Some x => ret x
          | None => raise (IndexError "list index out of range")
          end
    end.

(** ** The generator *)

Definition default_min_probability : Q := 0.40.

(** [e != Ethnicity.ANY]. *)
Definition is_concrete (e : Ethnicity) : bool := negb (Ethnicity_eqb e ANY).

(** The names of the five concrete categories. *)
Definition concrete_category (s : string) : bool :=
  match ethnicity_of_value s with
  | Some e => is_concrete e
  | None => false
  end.


(** [distribution], or the default one when it is [None]. *)
Definition distribution_in_force (d : option Distribution) : Distribution :=
  match d with
  | None => DEFAULT_ETHNIC_DISTRIBUTION
  | Some d' => d'
  end.

Definition _select_ethnicity (ethnicity : option Ethnicity)
    (distribution : option Distribution) : M string :=
  let weighted_random :=
    let distribution := distribution_in_force distribution in
    let ethnicities := map fst distribution in
    let weights := map snd distribution in
    choices ethnicities weights in
  match ethnicity with
  | Some e =>
      if is_concrete e then ret (ethnicity_value e) else weighted_random
  | None => weighted_random
  end.

(** The second parameter of the statement: present only for a gender
    other than ANY on the first-names table. *)
Definition gender_param (table : string) (gender : option Gender)
  : option string :=
  match gender with
  | Some g =>
      if negb (Gender_eqb g GENDER_ANY) && (table =? "first_names")
      then Some (gender_value g)
      else None
  | None => None
  end.

(** The query and the parameters [_fetch_names] builds. *)
Definition fetch_query (table ethnicity : string) (gender : option Gender)
    (min_probability : Q) : Query :=
  mkQuery table ethnicity min_probability (gender_param table gender).

(** The record built from a fetched row; [row["gender"]] raises IndexError
    (caught) when the table has no gender column, and an empty or NULL
    gender becomes [None]. *)
Definition record_of_row (has_gender : bool) (row : Row) : NameRecord :=
  let gender_value :=
    if has_gender then
      match row_gender row with
      | Some s => if s =? "" then None else Some s
      | None => None
      end
    else None in
  mkNameRecord (row_name row) gender_value (row_count row)
    (row_prob_white row) (row_prob_black row) (row_prob_hispanic row)
    (row_prob_asian row) (row_prob_other row).

Definition _fetch_names (table ethnicity : string) (gender : option Gender)
    (min_probability : Q) : M (list NameRecord) :=
  rows <- execute (fetch_query table ethnicity gender min_probability) ;;
  ret (map (record_of_row (has_gender_column rows)) (table_rows rows)).

(** The records of an answer of SQLite, when there is one. *)
Definition records_of (rows : Outcome Table) : Outcome (list NameRecord) :=
  match rows with
  | Ok rows =>
      Ok (map (record_of_row (has_gender_column rows)) (table_rows rows))
  | Raise e => Raise e
  end.

(** The weight of one candidate, given the accessor of its probability for
    the target category. *)
Definition selection_weight (prob : NameRecord -> Q) (r : NameRecord) : Q :=
  prob r * (1 + inject_Z (count r) / 100000).

Definition no_names_available : exn :=
  ValueError "No names available for selection".

Definition _weighted_select (names : list NameRecord) (ethnicity : string)
  : M NameRecord :=
  match names with
  | [] => raise no_names_available
  | _ :: _ =>
      match prob_attr ethnicity with
      | None =>
          raise (AttributeError
                   ("'NameRecord' object has no attribute 'prob_" ++
                    ethnicity ++ "'"))
      | Some prob => choices names (map (selection_weight prob) names)
      end
  end.

Definition is_empty {A} (l : list A) : bool :=
  match l with
  | [] => true
  | _ :: _ => false
  end.

Definition no_first_names_error (target_ethnicity : string) (gender : Gender)
  : exn :=
  ValueError ("No first names found for ethnicity=" ++ target_ethnicity ++
              ", gender=" ++ gender_value gender).

Definition no_surnames_error (target_ethnicity : string) : exn :=
  ValueError ("No surnames found for ethnicity=" ++ target_ethnicity).

(** [gender or Gender.ANY]. *)
Definition gender_or_any (gender : option Gender) : Gender :=
  match gender with
  | Some g => g
  | None => GENDER_ANY
  end.

Definition generate_first_name (ethnicity : option Ethnicity)
    (gender : option Gender) (distribution : option Distribution)
    (min_probability : Q) : M NameRecord :=
  target_ethnicity <- _select_ethnicity ethnicity distribution ;;
  let gender := gender_or_any gender in
  names <- _fetch_names "first_names" target_ethnicity (Some gender)
                        min_probability ;;
  names <- (if is_empty names && Qlt_bool 0.20 min_probability
            then _fetch_names "first_names" target_ethnicity (Some gender)
                              0.20
            else ret names) ;;
  if is_empty names
  then raise (no_first_names_error target_ethnicity gender)
  else _weighted_select names target_ethnicity.

Definition generate_last_name (ethnicity : option Ethnicity)
    (distribution : option Distribution) (min_probability : Q)
  : M NameRecord :=
  target_ethnicity <- _select_ethnicity ethnicity distribution ;;
  names <- _fetch_names "surnames" target_ethnicity None min_probability ;;
  names <- (if is_empty names && Qlt_bool 0.20 min_probability
            then _fetch_names "surnames" target_ethnicity None 0.20
            else ret names) ;;
  if is_empty names
  then raise (no_surnames_error target_ethnicity)
  else _weighted_select names target_ethnicity.

(** The call [Ethnicity(value)]. *)
Definition Ethnicity_call (value : string) : M Ethnicity :=
  match ethnicity_of_value value with
  | Some e => ret e
  | None => raise (ValueError ("'" ++ value ++ "' is not a valid Ethnicity"))
  end.

Definition generate_full_name (ethnicity : option Ethnicity)
    (gender : option Gender) (distribution : option Distribution)
    (min_probability : Q) : M (NameRecord * NameRecord) :=
  target_ethnicity <- _select_ethnicity ethnicity distribution ;;
  e1 <- Ethnicity_call target_ethnicity ;;
  first_name <- generate_first_name (Some e1) gender distribution
                                    min_probability ;;
  e2 <- Ethnicity_call target_ethnicity ;;
  last_name <- generate_last_name (Some e2) distribution min_probability ;;
  ret (first_name, last_name).

(** The first fetch of [generate_first_name] and [generate_last_name]
    together with the retry at 0.20 that follows an empty answer; used to
    state what the two functions have in common. *)
Definition fetch_with_fallback (table target_ethnicity : string)
    (gender : option Gender) (min_probability : Q) : M (list NameRecord) :=
  names <- _fetch_names table target_ethnicity gender min_probability ;;
  if is_empty names && Qlt_bool 0.20 min_probability
  then _fetch_names table target_ethnicity gender 0.20
  else ret names.

(** ** Batches *)

Inductive Value :=
| VStr (s : string)
| VNone
| VDict (d : list (string * Q)).

Definition Dict := list (string * Value).

Definition has_key (d : Dict) (k : string) : bool :=
  existsb (fun kv => fst kv =? k) d.

Definition value_of_optional_str (o : option string) : Value :=
  match o with
  | Some s => VStr s
  | None => VNone
  end.

(** [round(x)] to the nearest integer, ties to the even one. *)
Definition round_half_even (x : Q) : Z :=
  let f := Qfloor x in
  let r := x - inject_Z f in
  if Qlt_bool r (1 # 2) then f
  else if Qlt_bool (1 # 2) r then (f + 1)%Z
  else if Z.even f then f else (f + 1)%Z.

(** [round(x, 3)]. *)
Definition round3 (x : Q) : Q :=
  inject_Z (round_half_even (x * 1000)) / 1000.

Definition full_name_entry (first last : NameRecord) : Dict :=
  [ ("first_name", VStr (name first));
    ("last_name", VStr (name last));
    ("full_name", VStr (name first ++ " " ++ name last));
    ("gender", value_of_optional_str (gender first));
    ("ethnicity_probabilities",
     VDict
       [ ("white", round3 ((prob_white first + prob_white last) / 2));
         ("black", round3 ((prob_black first + prob_black last) / 2));
         ("hispanic",
          round3 ((prob_hispanic first + prob_hispanic last) / 2));
         ("asian", round3 ((prob_asian first + prob_asian last) / 2));
         ("other", round3 ((prob_other first + prob_other last) / 2))
       ]) ].

Definition first_name_entry (first : NameRecord) : Dict :=
  [ ("first_name", VStr (name first));
    ("gender", value_of_optional_str (gender first));
    ("ethnicity_probabilities",
     VDict
       [ ("white", prob_white first);
         ("black", prob_black first);
         ("hispanic", prob_hispanic first);
         ("asian", prob_asian first);
         ("other", prob_other first) ]) ].

(** The body of the loop [for _ in range(count)], run [n] more times on
    the results collected so far. *)
Fixpoint batch_loop (n : nat) (ethnicity : option Ethnicity)
    (gender : option Gender) (include_surnames : bool)
    (distribution : option Distribution) (results : list Dict)
  : M (list Dict) :=
  match n with
  | O => ret results
  | S n' =>
      entry <-
        (if include_surnames then
           names <- generate_full_name ethnicity gender distribution
                                       default_min_probability ;;
           ret (full_name_entry (fst names) (snd names))
         else
           first <- generate_first_name ethnicity gender distribution
                                        default_min_probability ;;
           ret (first_name_entry first)) ;;
      batch_loop n' ethnicity gender include_surnames distribution
                 (results ++ [entry])
  end.

(** What every entry of a batch holds. *)
Definition batch_entry_ok (include_surnames : bool) (entry : Dict) : Prop :=
  has_key entry "first_name" = true /\
  (include_surnames = true -> has_key entry "full_name" = true).

(** [range(count)] is empty for a negative [count]. *)
Definition generate_batch (count : Z) (ethnicity : option Ethnicity)
    (gender : option Gender) (include_surnames : bool)
    (distribution : option Distribution) : M (list Dict) :=
  batch_loop (Z.to_nat count) ethnicity gender include_surnames distribution
             [].

(** ** Sample data (the fixture of [tests/test_generator.py]) *)

Definition sample_first_names : Table :=
  mkTable true
    [ mkRow "Maria" (Some "F") 10000 0.10 0.05 0.75 0.08 0.02;
      mkRow "Jose" (Some "M") 8000 0.08 0.03 0.80 0.07 0.02;
      mkRow "Jennifer" (Some "F") 12000 0.70 0.15 0.10 0.03 0.02;
      mkRow "Michael" (Some "M") 15000 0.65 0.20 0.10 0.03 0.02;
      mkRow "Wei" (Some "M") 3000 0.05 0.02 0.03 0.88 0.02;
      mkRow "Jamal" (Some "M") 4000 0.05 0.85 0.05 0.03 0.02;
      mkRow "Emily" (Some "F") 11000 0.75 0.10 0.08 0.05 0.02 ].

Definition sample_surnames : Table :=
  mkTable false
    [ mkRow "Garcia" None 20000 0.05 0.03 0.85 0.05 0.02;
      mkRow "Smith" None 30000 0.70 0.20 0.05 0.03 0.02;
      mkRow "Johnson" None 25000 0.60 0.30 0.05 0.03 0.02;
      mkRow "Wang" None 8000 0.03 0.01 0.02 0.92 0.02;
      mkRow "Williams" None 22000 0.45 0.48 0.03 0.02 0.02;
      mkRow "Rodriguez" None 18000 0.04 0.02 0.88 0.04 0.02 ].

Definition sample_db : Database :=
  mkDatabase (Some sample_first_names) (Some sample_surnames).

(** A database whose tables exist and hold no row. *)
Definition empty_db : Database :=
  mkDatabase (Some (mkTable true [])) (Some (mkTable false [])).

Definition sample_env (u : nat -> Q) : Env :=
  mkEnv "data/names.db" (Some sample_db) u.

Definition initial_state : State := mkState None 0 [].

(** ** The properties of a record *)

(** The [probabilities] property: a dict, in this order. *)
Definition probabilities (r : NameRecord) : list (string * Q) :=
  [ ("white", prob_white r); ("black", prob_black r);
    ("hispanic", prob_hispanic r); ("asian", prob_asian r);
    ("other", prob_other r) ].

(** [max(probs, key=probs.get)] after its first item: the best key so far
    is replaced only by a key whose value is greater. *)
Fixpoint max_key_from (best : string) (best_value : Q)
    (items : list (string * Q)) : string :=
  match items with
  | [] => best
  | (k, v) :: items' =>
      if Qlt_bool best_value v then max_key_from k v items'
      else max_key_from best best_value items'
  end.

(** [max(probs, key=probs.get)]; [None] stands for the ValueError on an
    empty dict. *)
Definition max_key (probs : list (string * Q)) : option string :=
  match probs with
  | [] => None
  | (k, v) :: items => Some (max_key_from k v items)
  end.

(** The [dominant_ethnicity] property; [None] stands for a failure of
    [max] or of [Ethnicity(dominant)]. *)
Definition dominant_ethnicity (r : NameRecord) : option Ethnicity :=
  match max_key (probabilities r) with
  | Some dominant => ethnicity_of_value dominant
  | None => None
  end.

(** ** The connection's life *)

(** [close]: a connection that is open is closed and forgotten. *)
Definition close : M unit :=
  fun _ st => (Ok tt, mkState None (draws st) (queries st)).

(** [NameGenerator(db_path)]: a new generator has no connection. *)
Definition new_generator : M unit :=
  fun _ st => (Ok tt, mkState None (draws st) (queries st)).

(** [with NameGenerator(db_path) as generator: body]: [__enter__] returns
    the generator; [__exit__] closes it and returns [None], so that an
    exception of the body goes on. *)
Definition with_generator {A} (body : M A) : M A :=
  fun env st =>
    match new_generator env st with
    | (Ok _, st0) =>
        match body env st0 with
        | (o, st1) =>
            match close env st1 with
            | (Ok _, st2) => (o, st2)
            | (Raise e, st2) => (Raise e, st2)
            end
        end
    | (Raise e, st0) => (Raise e, st0)
    end.

(** What a computation leaves as it found it: the database reached (an
    open connection stays open and the same), the queries already issued
    and the draws already made. *)
Definition keeps_session {A} (m : M A) : Prop :=
  forall env st,
    reachable env (snd (run m env st)) = reachable env st /\
    (forall db, _conn st = Some db -> _conn (snd (run m env st)) = Some db) /\
    (draws st <= draws (snd (run m env st)))%nat /\
    exists qs, queries (snd (run m env st)) = (queries st ++ qs)%list.


(** A row that a request on [table] with gender [g] accepts at
    [threshold]: what [row_matches] decides for the query of the request. *)
Definition qualifies (col : Row -> Q) (table : string) (g : option Gender)
    (threshold : Q) (row : Row) : Prop :=
  threshold <= col row /\
  (forall s, gender_param table g = Some s -> row_gender row = Some s).

(** A computation all of whose queries satisfy [P]. *)
Definition queries_within {A} (P : Query -> Prop) (m : M A) : Prop :=
  forall env st,
  exists qs,
    queries (snd (run m env st)) = (queries st ++ qs)%list /\ Forall P qs.

(** The queries a request for a first name, and for a surname, may issue
    at the threshold [p]. *)
Definition first_name_query (g : option Gender) (p : Q) (q : Query) : Prop :=
  q_table q = "first_names" /\
  q_gender q = gender_param "first_names" (Some (gender_or_any g)) /\
  (q_min_probability q = p \/ q_min_probability q = 0.20).

Definition surname_query (p : Q) (q : Query) : Prop :=
  q_table q = "surnames" /\ q_gender q = None /\
  (q_min_probability q = p \/ q_min_probability q = 0.20).

(** [d[k]] and [k in d] for the dicts of a batch; [None] stands for the
    KeyError. *)
Definition dict_lookup (d : Dict) (k : string) : option Value :=
  match find (fun kv => fst kv =? k) d with
  | Some kv => Some (snd kv)
  | None => None
  end.


(** ** The command line

    [format_output] and [main] of [name_generator/__init__.py].  What the
    Python library does there is taken as it comes: [json.dumps], the
    [str] of a float and of a dict are parameters; argument parsing
    ([parse_args]) and the database setup ([setup_database]) are not
    modelled. *)

(** The exceptions met on the command line, besides the generator's. *)
Inductive cli_exn :=
| GeneratorError (e : exn)
| KeyError (key : string)
| TypeError.

Inductive Result (A : Type) :=
| Done (a : A)
| Failed (e : cli_exn).

Arguments Done {A} a.
Arguments Failed {A} e.

Definition and_then {A B} (r : Result A) (k : A -> Result B) : Result B :=
  match r with
  | Done a => k a
  | Failed e => Failed e
  end.

(** A loop that builds a list and stops at the first exception. *)
Fixpoint for_each {A B} (f : A -> Result B) (l : list A) : Result (list B) :=
  match l with
  | [] => Done []
  | a :: l' =>
      and_then (f a) (fun b =>
      and_then (for_each f l') (fun bs => Done (b :: bs)))
  end.

Definition newline : string := String (Ascii.ascii_of_nat 10) "".

(** [name[k]]. *)
Definition subscript (d : Dict) (k : string) : Result Value :=
  match dict_lookup d k with
  | Some v => Done v
  | None => Failed (KeyError k)
  end.

(** ["\n".join(lines)]: every item has to be a str. *)
Fixpoint strings_of (values : list Value) : Result (list string) :=
  match values with
  | [] => Done []
  | VStr s :: values' =>
      and_then (strings_of values') (fun ss => Done (s :: ss))
  | _ :: _ => Failed TypeError
  end.

Definition csv_header_first : string :=
  "first_name,gender,prob_white,prob_black,prob_hispanic,prob_asian,prob_other".

Definition csv_header_full : string :=
  "full_name,first_name,last_name,gender,prob_white,prob_black,prob_hispanic,prob_asian,prob_other".

Section FormatOutput.

Variable json_dumps : list Dict -> string.
Variable float_str : Q -> string.
Variable dict_str : list (string * Q) -> string.

(** The text an f-string puts for a value. *)
Definition value_str (v : Value) : string :=
  match v with
  | VStr s => s
  | VNone => "None"
  | VDict d => dict_str d
  end.

(** [name.get('gender', '')], formatted. *)
Definition gender_field (name_ : Dict) : string :=
  match dict_lookup name_ "gender" with
  | Some v => value_str v
  | None => ""
  end.

(** [probs[k]], formatted. *)
Definition prob_field (probs : Value) (k : string) : Result string :=
  match probs with
  | VDict d =>
      match find (fun kv => fst kv =? k) d with
      | Some kv => Done (float_str (snd kv))
      | None => Failed (KeyError k)
      end
  | _ => Failed TypeError
  end.

Definition prob_fields (probs : Value) : Result string :=
  and_then (prob_field probs "white") (fun w =>
  and_then (prob_field probs "black") (fun b =>
  and_then (prob_field probs "hispanic") (fun h =>
  and_then (prob_field probs "asian") (fun a =>
  and_then (prob_field probs "other") (fun o =>
  Done (w ++ "," ++ b ++ "," ++ h ++ "," ++ a ++ "," ++ o)))))).

Definition csv_row_first (name_ : Dict) : Result string :=
  and_then (subscript name_ "ethnicity_probabilities") (fun probs =>
  and_then (subscript name_ "first_name") (fun first =>
  and_then (prob_fields probs) (fun ps =>
  Done (value_str first ++ "," ++ gender_field name_ ++ "," ++ ps)))).

Definition csv_row_full (name_ : Dict) : Result string :=
  and_then (subscript name_ "ethnicity_probabilities") (fun probs =>
  and_then (subscript name_ "full_name") (fun full =>
  and_then (subscript name_ "first_name") (fun first =>
  and_then (subscript name_ "last_name") (fun last =>
  and_then (prob_fields probs) (fun ps =>
  Done (value_str full ++ "," ++ value_str first ++ "," ++ value_str last ++
        "," ++ gender_field name_ ++ "," ++ ps)))))).

Definition format_output (names : list Dict) (output_format : string)
    (first_only : bool) : Result string :=
  if output_format =? "json" then Done (json_dumps names)
  else if output_format =? "csv" then
    if is_empty names then Done ""
    else if first_only then
      and_then (for_each csv_row_first names) (fun rows =>
      Done (String.concat newline (csv_header_first :: rows)))
    else
      and_then (for_each csv_row_full names) (fun rows =>
      Done (String.concat newline (csv_header_full :: rows)))
  else
    and_then
      (for_each (fun name_ =>
                   subscript name_
                     (if first_only then "first_name" else "full_name"))
                names)
      (fun lines =>
      and_then (strings_of lines) (fun ss =>
      Done (String.concat newline ss))).

End FormatOutput.

(** The arguments [parse_args] returns. *)
Record Args := mkArgs {
  args_count : Z;
  args_ethnicity : string;
  args_gender : string;
  args_first_only : bool;
  args_format : string;
  args_min_probability : Q;
  args_setup : bool;
  args_db_path : option string
}.

(** [str.lower], on the letters A to Z. *)
Definition ascii_lower (c : Ascii.ascii) : Ascii.ascii :=
  let n := Ascii.nat_of_ascii c in
  if ((65 <=? n) && (n <=? 90))%nat then Ascii.ascii_of_nat (n + 32) else c.

Fixpoint lower (s : string) : string :=
  match s with
  | EmptyString => EmptyString
  | String c s' => String (ascii_lower c) (lower s')
  end.

(** [gender_map.get(args.gender.lower(), Gender.ANY)]. *)
Definition gender_of_arg (s : string) : Gender :=
  let k := lower s in
  if k =? "male" then MALE
  else if k =? "m" then MALE
  else if k =? "female" then FEMALE
  else if k =? "f" then FEMALE
  else GENDER_ANY.

(** [Ethnicity.ANY if args.ethnicity == "any" else Ethnicity(args.ethnicity)];
    [None] stands for the ValueError of the call. *)
Definition ethnicity_of_arg (s : string) : option Ethnicity :=
  if s =? "any" then Some ANY else ethnicity_of_value s.

(** [args.db_path if args.db_path else None]. *)
Definition db_path_of_arg (o : option string) : option string :=
  match o with
  | Some s => if s =? "" then None else Some s
  | None => None
  end.

(** A generator built on the str of the command line: [__init__] keeps
    the str, and the [conn] property calls [exists()] on it where it would
    test the file of a [Path]; a str has no such method.  The body runs as
    it does when no file is found, with that AttributeError in the place
    of the FileNotFoundError of [conn]. *)
Definition on_str_path {A} (body : M A) : M A :=
  fun env st =>
    match body (mkEnv (db_path env) None (rng env)) st with
    | (Raise (FileNotFoundError _), st') =>
        (Raise (AttributeError "'str' object has no attribute 'exists'"), st')
    | r => r
    end.

(** How [main] ends. *)
Inductive MainResult :=
| SetupRun
    (* --setup: [setup_database()] runs and [main] returns *)
| Printed (output : string)
    (* the output is printed and [main] returns *)
| ErrorExit (e : cli_exn) (setup_hint : bool)
    (* "Error: ..." on stderr, then the hint to run the setup after a
       FileNotFoundError, then [sys.exit(1)] *)
| Uncaught (e : exn).
    (* an exception raised outside the [try] *)

Definition is_file_not_found (e : exn) : bool :=
  match e with
  | FileNotFoundError _ => true
  | _ => false
  end.

Section Main.

Variable json_dumps : list Dict -> string.
Variable float_str : Q -> string.
Variable dict_str : list (string * Q) -> string.

(** [env] is the environment of the default database path. *)
Definition main (args : Args) (env : Env) (st : State)
  : MainResult * State :=
  if args_setup args then (SetupRun, st)
  else
    let gender := gender_of_arg (args_gender args) in
    match ethnicity_of_arg (args_ethnicity args) with
    | None =>
        (Uncaught (ValueError ("'" ++ args_ethnicity args ++
                               "' is not a valid Ethnicity")), st)
    | Some ethnicity =>
        let body :=
          names <- generate_batch (args_count args) (Some ethnicity)
                     (Some gender) (negb (args_first_only args)) None ;;
          ret (format_output json_dumps float_str dict_str names
                 (args_format args) (args_first_only args)) in
        let session :=
          match db_path_of_arg (args_db_path args) with
          | None => with_generator body
          | Some _ => with_generator (on_str_path body)
          end in
        match run session env st with
        | (Ok (Done output), st') => (Printed output, st')
        | (Ok (Failed e), st') => (ErrorExit e false, st')
        | (Raise e, st') =>
            (ErrorExit (GeneratorError e) (is_file_not_found e), st')
        end
    end.

End Main.

(** The entries a batch builds, with and without surnames. *)
Definition batch_entry (include_surnames : bool) (entry : Dict) : Prop :=
  if include_surnames
  then exists first last, entry = full_name_entry first last
  else exists first, entry = first_name_entry first.

(** * Properties *)

(** ** Comparisons and columns *)

Lemma Qlt_bool_iff (x y : Q) : Qlt_bool x y = true <-> x < y.
Proof.
  unfold Qlt_bool. rewrite negb_true_iff.
  split; intro H.
  - apply Qnot_le_lt. intro Hle. apply Qle_bool_iff in Hle. congruence.
  - destruct (Qle_bool y x) eqn:E; [|reflexivity].
    apply Qle_bool_iff in E. exfalso. apply (Qlt_not_le _ _ H E).
Qed.

Lemma Qlt_bool_false_iff (x y : Q) : Qlt_bool x y = false <-> y <= x.
Proof.
  unfold Qlt_bool. rewrite negb_false_iff. apply Qle_bool_iff.
Qed.

Lemma Qle_bool_false_iff (x y : Q) : Qle_bool x y = false <-> y < x.
Proof.
  rewrite <- (negb_true_iff (Qle_bool x y)). apply (Qlt_bool_iff y x).
Qed.

(** The record accessor and the table column of one category agree. *)
Lemma prob_attr_column (t : string) (prob : NameRecord -> Q) :
  prob_attr t = Some prob ->
  exists col, prob_column t = Some col /\
              forall b row, prob (record_of_row b row) = col row.
Proof.
  unfold prob_attr, prob_column.
  repeat (destruct (t =? _)%string;
          [intro H; injection H as <-; eexists; split;
           [reflexivity | intros; reflexivity] |]).
  discriminate.
Qed.

(** ** The connection and the queries *)

Lemma conn_run (env : Env) (st : State) :
  run conn env st =
  match reachable env st with
  | Some db => (Ok db, mkState (Some db) (draws st) (queries st))
  | None => (Raise (database_not_found env), st)
  end.
Proof.
  unfold run, conn, reachable.
  destruct st as [c n qs]; simpl.
  destruct c as [db|]; [reflexivity|].
  destruct (disk env); reflexivity.
Qed.

Lemma execute_run (q : Query) (env : Env) (st : State) :
  run (execute q) env st =
  match reachable env st with
  | Some db =>
      (sqlite_execute db q, mkState (Some db) (draws st) (queries st ++ [q]))
  | None => (Raise (database_not_found env), st)
  end.
Proof.
  unfold execute, run, bind. fold (run conn env st). rewrite conn_run.
  destruct (reachable env st); reflexivity.
Qed.

Lemma fetch_names_run (table t : string) (g : option Gender) (p : Q)
    (env : Env) (st : State) :
  run (_fetch_names table t g p) env st =
  match reachable env st with
  | Some db =>
      (match sqlite_execute db (fetch_query table t g p) with
       | Ok rows =>
           Ok (map (record_of_row (has_gender_column rows)) (table_rows rows))
       | Raise e => Raise e
       end,
       mkState (Some db) (draws st)
               (queries st ++ [fetch_query table t g p]))
  | None => (Raise (database_not_found env), st)
  end.
Proof.
  unfold _fetch_names, run, bind.
  fold (run (execute (fetch_query table t g p)) env st).
  rewrite execute_run.
  destruct (reachable env st) as [db|]; [|reflexivity].
  destruct (sqlite_execute db (fetch_query table t g p)); reflexivity.
Qed.

(** A successful fetch: where the records come from. *)
Lemma fetch_names_ok (table t : string) (g : option Gender) (p : Q)
    (env : Env) (st st' : State) (names : list NameRecord) :
  run (_fetch_names table t g p) env st = (Ok names, st') ->
  exists db tb col,
    reachable env st = Some db /\
    lookup_table db table = Some tb /\
    prob_column t = Some col /\
    names = map (record_of_row (has_gender_column tb))
                (filter (row_matches col (fetch_query table t g p))
                        (table_rows tb)) /\
    st' = mkState (Some db) (draws st)
                  (queries st ++ [fetch_query table t g p]).
Proof.
  rewrite fetch_names_run.
  destruct (reachable env st) as [db|] eqn:Hdb; [|discriminate].
  unfold sqlite_execute. simpl q_table. simpl q_ethnicity.
  destruct (lookup_table db table) as [tb|] eqn:Htb; [|discriminate].
  destruct (prob_column t) as [col|] eqn:Hcol; [|discriminate].
  match goal with |- context [if ?c then _ else _] => destruct c end;
    [discriminate|].
  simpl. intro H. injection H as <- <-.
  exists db, tb, col. repeat apply conj; auto.
Qed.

(** Records fetched for a category meet the threshold of the query. *)
Lemma fetch_names_threshold (table t : string) (g : option Gender) (p : Q)
    (env : Env) (st st' : State) (names : list NameRecord)
    (prob : NameRecord -> Q) :
  run (_fetch_names table t g p) env st = (Ok names, st') ->
  prob_attr t = Some prob ->
  forall r, In r names -> p <= prob r.
Proof.
  intros Hrun Hattr r Hin.
  apply fetch_names_ok in Hrun.
  destruct Hrun as (db & tb & col & _ & _ & Hcol & -> & _).
  apply prob_attr_column in Hattr. destruct Hattr as (col' & Hcol' & Hagree).
  rewrite Hcol in Hcol'. injection Hcol' as <-.
  apply in_map_iff in Hin. destruct Hin as (row & <- & Hrow).
  apply filter_In in Hrow. destruct Hrow as [_ Hm].
  unfold row_matches in Hm. apply andb_true_iff in Hm. destruct Hm as [Hm _].
  rewrite Hagree. apply Qle_bool_iff in Hm. exact Hm.
Qed.

(** ** Cumulative weights and bisection *)

Lemma accumulate_from_length (ws : list Q) (acc : Q) :
  length (accumulate_from acc ws) = length ws.
Proof.
  revert acc. induction ws as [|w ws IH]; intro acc; simpl;
    [reflexivity | now rewrite IH].
Qed.

Lemma accumulate_length (ws : list Q) : length (accumulate ws) = length ws.
Proof.
  destruct ws; simpl; [reflexivity | now rewrite accumulate_from_length].
Qed.

Lemma accumulate_from_nth (ws : list Q) (acc : Q) (i : nat) :
  (i < length ws)%nat ->
  nth i (accumulate_from acc ws) 0 == acc + Qsum (firstn (S i) ws).
Proof.
  revert acc i. induction ws as [|w ws IH]; intros acc i Hi; simpl in Hi.
  - lia.
  - destruct i as [|i].
    + simpl. ring.
    + change (nth (S i) (accumulate_from acc (w :: ws)) 0)
        with (nth i (accumulate_from (acc + w) ws) 0).
      rewrite IH by lia.
      change (Qsum (firstn (S (S i)) (w :: ws)))
        with (w + Qsum (firstn (S i) ws)).
      ring.
Qed.

(** The entry [i] of the cumulative weights is the sum of the weights up to
    and including [i]. *)
Lemma accumulate_nth (ws : list Q) (i : nat) :
  (i < length ws)%nat ->
  nth i (accumulate ws) 0 == Qsum (firstn (S i) ws).
Proof.
  destruct ws as [|w ws]; simpl length; intro Hi; [lia|].
  destruct i as [|i].
  - simpl. ring.
  - change (nth (S i) (accumulate (w :: ws)) 0)
      with (nth i (accumulate_from w ws) 0).
    rewrite accumulate_from_nth by lia. reflexivity.
Qed.

Lemma Qsum_firstn_all (ws : list Q) : Qsum (firstn (length ws) ws) = Qsum ws.
Proof. now rewrite firstn_all. Qed.






(** The index is within the bounds whatever the list holds. *)
Lemma bisect_loop_bounds (a : list Q) (x : Q) (fuel lo hi : nat) :
  (lo <= hi)%nat -> (lo <= bisect_loop fuel a x lo hi <= hi)%nat.
Proof.
  revert lo hi. induction fuel as [|fuel IH]; intros lo hi Hle;
    cbn [bisect_loop].
  - lia.
  - destruct (lo <? hi)%nat eqn:Hlt; [|lia].
    apply Nat.ltb_lt in Hlt.
    assert (Hmid : (lo <= (lo + hi) / 2 < hi)%nat).
    { split.
      - apply Nat.div_le_lower_bound; lia.
      - apply Nat.Div0.div_lt_upper_bound; lia. }
    destruct (Qlt_bool x (nth ((lo + hi) / 2) a 0)).
    + specialize (IH lo ((lo + hi) / 2)%nat). lia.
    + specialize (IH (S ((lo + hi) / 2)) hi). lia.
Qed.

(** ** [random.choices] *)

Lemma nth_error_nth_default (l : list Q) (i : nat) (x : Q) :
  nth_error l i = Some x -> nth i l 0 = x.
Proof. intro H. now apply nth_error_nth. Qed.

(** [choices] touches neither the connection nor the queries; it draws
    once exactly when it returns, and what it returns is in the
    population. *)
Lemma choices_frame {A} (population : list A) (weights : list Q)
    (env : Env) (st st' : State) (o : Outcome A) :
  run (choices population weights) env st = (o, st') ->
  _conn st' = _conn st /\ queries st' = queries st /\
  match o with
  | Ok x => In x population /\ draws st' = S (draws st)
  | Raise _ => st' = st
  end.
Proof.
  unfold choices, run.
  destruct (negb (length (accumulate weights) =? length population)%nat)
    eqn:Hlen.
  { unfold raise. intro H. injection H as <- <-. auto. }
  apply negb_false_iff, Nat.eqb_eq in Hlen.
  destruct (nth_error (accumulate weights) (length (accumulate weights) - 1))
    as [total|] eqn:Htotal.
  2:{ unfold raise. intro H. injection H as <- <-. auto. }
  destruct (Qle_bool total 0).
  { unfold raise. intro H. injection H as <- <-. auto. }
  unfold bind, random.
  set (k := bisect_right _ _ _ _).
  assert (Hk : (k < length population)%nat).
  { assert (Hne : (length (accumulate weights) - 1
                   < length (accumulate weights))%nat).
    { apply nth_error_Some. rewrite Htotal. discriminate. }
    subst k. unfold bisect_right.
    pose proof (bisect_loop_bounds (accumulate weights)
                  (rng env (draws st) * total)
                  (length population - 1 - 0) 0 (length population - 1)
                  (Nat.le_0_l _)).
    lia. }
  destruct (nth_error population k) as [x|] eqn:Hx.
  - unfold ret. intro H. injection H as <- <-. simpl.
    repeat apply conj; auto. eapply nth_error_In; eassumption.
  - apply nth_error_None in Hx. lia.
Qed.



(** A population of one element: no search takes place. *)
Lemma choices_singleton {A} (x : A) (w : Q) (env : Env) (st : State) :
  run (choices [x] [w]) env st =
  if Qle_bool w 0
  then (Raise (ValueError "Total of weights must be greater than zero"), st)
  else (Ok x, mkState (_conn st) (S (draws st)) (queries st)).
Proof.
  unfold choices, run. simpl.
  destruct (Qle_bool w 0); reflexivity.
Qed.

(** ** The resolver *)

Lemma select_ethnicity_concrete (e : Ethnicity) (d : option Distribution)
    (env : Env) (st : State) :
  is_concrete e = true ->
  run (_select_ethnicity (Some e) d) env st = (Ok (ethnicity_value e), st).
Proof.
  unfold _select_ethnicity, run. intros ->. reflexivity.
Qed.

Lemma select_ethnicity_frame (e : option Ethnicity) (d : option Distribution)
    (env : Env) (st st' : State) (o : Outcome string) :
  run (_select_ethnicity e d) env st = (o, st') ->
  _conn st' = _conn st /\ queries st' = queries st /\
  match o with
  | Ok t =>
      (exists e', e = Some e' /\ is_concrete e' = true /\
                  t = ethnicity_value e' /\ st' = st) \/
      (In t (map fst (distribution_in_force d)) /\
       draws st' = S (draws st))
  | Raise _ => st' = st
  end.
Proof.
  unfold _select_ethnicity.
  destruct e as [e'|].
  - destruct (is_concrete e') eqn:Hc.
    + unfold run, ret. intro H. injection H as <- <-.
      repeat apply conj; auto. left. exists e'. auto.
    + intro H. apply choices_frame in H.
      destruct H as (Hc1 & Hq & Ho). repeat apply conj; auto.
      destruct o; [right; exact Ho | exact Ho].
  - intro H. apply choices_frame in H.
    destruct H as (Hc1 & Hq & Ho). repeat apply conj; auto.
    destruct o; [right; exact Ho | exact Ho].
Qed.

(** ** The two fetches of a request *)

Lemma fetch_with_fallback_run (table t : string) (g : option Gender) (p : Q)
    (env : Env) (st : State) :
  run (fetch_with_fallback table t g p) env st =
  match reachable env st with
  | None => (Raise (database_not_found env), st)
  | Some db =>
      match records_of (sqlite_execute db (fetch_query table t g p)) with
      | Raise e =>
          (Raise e,
           mkState (Some db) (draws st)
                   (queries st ++ [fetch_query table t g p]))
      | Ok names =>
          if is_empty names && Qlt_bool 0.20 p then
            (records_of (sqlite_execute db (fetch_query table t g 0.20)),
             mkState (Some db) (draws st)
                     (queries st ++ [fetch_query table t g p;
                                     fetch_query table t g 0.20]))
          else
            (Ok names,
             mkState (Some db) (draws st)
                     (queries st ++ [fetch_query table t g p]))
      end
  end.
Proof.
  unfold fetch_with_fallback, run, bind.
  fold (run (_fetch_names table t g p) env st).
  rewrite fetch_names_run.
  destruct (reachable env st) as [db|]; [|reflexivity].
  fold (records_of (sqlite_execute db (fetch_query table t g p))).
  destruct (records_of (sqlite_execute db (fetch_query table t g p)))
    as [names|e]; [|reflexivity].
  destruct (is_empty names && Qlt_bool 0.20 p); [|reflexivity].
  match goal with
  | |- _fetch_names ?a ?b ?c ?d ?e ?s = _ =>
      change (run (_fetch_names a b c d) e s = 
              (records_of (sqlite_execute db (fetch_query table t g 0.20)),
               mkState (Some db) (draws st)
                 (queries st ++ [fetch_query table t g p;
                                 fetch_query table t g 0.20])))
  end.
  rewrite fetch_names_run. unfold reachable, records_of. simpl.
  rewrite <- app_assoc. reflexivity.
Qed.

Lemma generate_first_name_run (e : option Ethnicity) (g : option Gender)
    (d : option Distribution) (p : Q) (env : Env) (st : State) :
  run (generate_first_name e g d p) env st =
  match run (_select_ethnicity e d) env st with
  | (Raise x, st1) => (Raise x, st1)
  | (Ok t, st1) =>
      match run (fetch_with_fallback "first_names" t
                   (Some (gender_or_any g)) p) env st1 with
      | (Raise x, st2) => (Raise x, st2)
      | (Ok names, st2) =>
          if is_empty names
          then (Raise (no_first_names_error t (gender_or_any g)), st2)
          else run (_weighted_select names t) env st2
      end
  end.
Proof.
  unfold generate_first_name, fetch_with_fallback, run, bind.
  destruct (_select_ethnicity e d env st) as [[t|x] st1]; [|reflexivity].
  destruct (_fetch_names "first_names" t (Some (gender_or_any g)) p env st1)
    as [[names|x] st2]; [|reflexivity].
  match goal with
  | |- context [?m env st2] => destruct (m env st2) as [[names'|x] st3]
  end; [|reflexivity].
  destruct (is_empty names'); reflexivity.
Qed.

Lemma generate_last_name_run (e : option Ethnicity)
    (d : option Distribution) (p : Q) (env : Env) (st : State) :
  run (generate_last_name e d p) env st =
  match run (_select_ethnicity e d) env st with
  | (Raise x, st1) => (Raise x, st1)
  | (Ok t, st1) =>
      match run (fetch_with_fallback "surnames" t None p) env st1 with
      | (Raise x, st2) => (Raise x, st2)
      | (Ok names, st2) =>
          if is_empty names
          then (Raise (no_surnames_error t), st2)
          else run (_weighted_select names t) env st2
      end
  end.
Proof.
  unfold generate_last_name, fetch_with_fallback, run, bind.
  destruct (_select_ethnicity e d env st) as [[t|x] st1]; [|reflexivity].
  destruct (_fetch_names "surnames" t None p env st1)
    as [[names|x] st2]; [|reflexivity].
  match goal with
  | |- context [?m env st2] => destruct (m env st2) as [[names'|x] st3]
  end; [|reflexivity].
  destruct (is_empty names'); reflexivity.
Qed.

(** The sampler touches neither the connection nor the queries, and what
    it returns is one of the candidates. *)
Lemma weighted_select_frame (names : list NameRecord) (t : string)
    (env : Env) (st st' : State) (o : Outcome NameRecord) :
  run (_weighted_select names t) env st = (o, st') ->
  _conn st' = _conn st /\ queries st' = queries st /\
  match o with
  | Ok r => In r names /\ draws st' = S (draws st)
  | Raise _ => st' = st
  end.
Proof.
  unfold _weighted_select.
  destruct names as [|r0 names].
  { unfold run, raise. intro H. injection H as <- <-. auto. }
  destruct (prob_attr t) as [prob|].
  - apply choices_frame.
  - unfold run, raise. intro H. injection H as <- <-. auto.
Qed.

(** The queries of the two fetches: one or two, all on the same table, for
    the same category and with the same gender parameter; none only when no
    database can be reached. *)
Lemma fetch_with_fallback_queries (table t : string) (g : option Gender)
    (p : Q) (env : Env) (st st' : State) (o : Outcome (list NameRecord)) :
  run (fetch_with_fallback table t g p) env st = (o, st') ->
  draws st' = draws st /\
  exists qs,
    queries st' = (queries st ++ qs)%list /\
    Forall (fun q => q_table q = table /\ q_ethnicity q = t /\
                     q_gender q = gender_param table g) qs /\
    (length qs <= 2)%nat /\
    (qs = [] -> o = Raise (database_not_found env) /\ st' = st /\
                reachable env st = None).
Proof.
  rewrite fetch_with_fallback_run.
  destruct (reachable env st) as [db|] eqn:Hdb.
  - destruct (records_of (sqlite_execute db (fetch_query table t g p)))
      as [names|x].
    + destruct (is_empty names && Qlt_bool 0.20 p);
        intro H; injection H as <- <-; simpl; (split; [reflexivity|]);
        eexists; (split; [reflexivity|]);
        (split; [repeat constructor|]); (split; [simpl; lia|]);
        discriminate.
    + intro H; injection H as <- <-; simpl; (split; [reflexivity|]).
      eexists; (split; [reflexivity|]).
      (split; [repeat constructor|]); (split; [simpl; lia|]); discriminate.
  - intro H; injection H as <- <-. split; [reflexivity|].
    exists []. rewrite app_nil_r. repeat apply conj; auto.
Qed.

(** Candidates reach the sampler only above the lower of the requested
    threshold and 0.20. *)
Lemma fetch_with_fallback_threshold (table t : string) (g : option Gender)
    (p : Q) (env : Env) (st st' : State) (names : list NameRecord)
    (prob : NameRecord -> Q) :
  run (fetch_with_fallback table t g p) env st = (Ok names, st') ->
  prob_attr t = Some prob ->
  forall r, In r names -> Qmin p 0.20 <= prob r.
Proof.
  unfold fetch_with_fallback, run, bind.
  destruct (_fetch_names table t g p env st) as [[names1|x] st1] eqn:H1;
    [|discriminate].
  fold (run (_fetch_names table t g p) env st) in H1.
  destruct (is_empty names1 && Qlt_bool 0.20 p) eqn:Hc.
  - intros H2 Hattr r Hin.
    fold (run (_fetch_names table t g 0.20) env st1) in H2.
    apply Qle_trans with (y := 0.20); [apply Q.le_min_r|].
    eapply fetch_names_threshold; eassumption.
  - unfold ret. intros H2 Hattr r Hin. injection H2 as <- <-.
    apply Qle_trans with (y := p); [apply Q.le_min_l|].
    eapply fetch_names_threshold; eassumption.
Qed.

Lemma fetch_names_ok_records (table t : string) (g : option Gender) (p : Q)
    (env : Env) (st st' : State) (names : list NameRecord) :
  run (_fetch_names table t g p) env st = (Ok names, st') ->
  exists db,
    reachable env st = Some db /\
    records_of (sqlite_execute db (fetch_query table t g p)) = Ok names /\
    st' = mkState (Some db) (draws st)
                  (queries st ++ [fetch_query table t g p]).
Proof.
  rewrite fetch_names_run.
  destruct (reachable env st) as [db|]; [|discriminate].
  intro H. injection H as H1 H2. exists db. auto.
Qed.

(** Whether a query is answered does not depend on its threshold. *)
Lemma sqlite_execute_any_threshold (db : Database) (table t : string)
    (g : option Gender) (p p' : Q) (names : list NameRecord) :
  records_of (sqlite_execute db (fetch_query table t g p)) = Ok names ->
  exists names',
    records_of (sqlite_execute db (fetch_query table t g p')) = Ok names'.
Proof.
  unfold sqlite_execute, fetch_query. simpl.
  destruct (lookup_table db table) as [tb|]; [|discriminate].
  destruct (prob_column t) as [col|]; [|discriminate].
  match goal with |- context [if ?c then _ else _] => destruct c end;
    [discriminate|].
  intros _. eexists. reflexivity.
Qed.

Lemma fallback_after_empty_fetch (table t : string) (g : option Gender)
    (env : Env) (st1 st2 : State) :
  run (_fetch_names table t g 0.40) env st1 = (Ok [], st2) ->
  exists names st3,
    run (_fetch_names table t g 0.20) env st2 = (Ok names, st3) /\
    queries st3 = (queries st1 ++ [fetch_query table t g 0.40;
                                   fetch_query table t g 0.20])%list /\
    run (fetch_with_fallback table t g 0.40) env st1 = (Ok names, st3).
Proof.
  intro H1. apply fetch_names_ok_records in H1.
  destruct H1 as (db & Hdb & Hrec & ->).
  destruct (sqlite_execute_any_threshold db table t g 0.40 0.20 [] Hrec)
    as (names & Hrec2).
  exists names.
  exists (mkState (Some db) (draws st1)
            (queries st1 ++ [fetch_query table t g 0.40;
                             fetch_query table t g 0.20])).
  repeat apply conj.
  - rewrite fetch_names_run. unfold reachable. simpl.
    fold (records_of (sqlite_execute db (fetch_query table t g 0.20))).
    rewrite Hrec2, <- app_assoc. reflexivity.
  - reflexivity.
  - rewrite fetch_with_fallback_run, Hdb, Hrec. simpl.
    rewrite Hrec2. reflexivity.
Qed.

(** ** The threshold fallback *)

(** C1.  With the default threshold 0.40, an empty answer to the first
    fetch is followed by exactly one more fetch, at 0.20, for the same
    table, category and gender; the request issues these two queries and no
    other.  When the second answer is empty too the request fails with the
    no-candidates error; otherwise the sampler runs on the second answer.
    This holds for [generate_first_name] and for [generate_last_name]. *)
Theorem threshold_fallback_once (e : option Ethnicity) (g : option Gender)
    (d : option Distribution) (env : Env) (st st1 : State) (t : string) :
  run (_select_ethnicity e d) env st = (Ok t, st1) ->
  (forall st2,
      run (_fetch_names "first_names" t (Some (gender_or_any g)) 0.40)
          env st1 = (Ok [], st2) ->
      exists names st3,
        run (_fetch_names "first_names" t (Some (gender_or_any g)) 0.20)
            env st2 = (Ok names, st3) /\
        queries st3 =
          (queries st ++
           [fetch_query "first_names" t (Some (gender_or_any g)) 0.40;
            fetch_query "first_names" t (Some (gender_or_any g)) 0.20])%list /\
        queries (snd (run (generate_first_name e g d 0.40) env st)) =
          queries st3 /\
        (names = [] ->
         run (generate_first_name e g d 0.40) env st =
           (Raise (no_first_names_error t (gender_or_any g)), st3)) /\
        (names <> [] ->
         run (generate_first_name e g d 0.40) env st =
           run (_weighted_select names t) env st3))
  /\
  (forall st2,
      run (_fetch_names "surnames" t None 0.40) env st1 = (Ok [], st2) ->
      exists names st3,
        run (_fetch_names "surnames" t None 0.20) env st2 = (Ok names, st3) /\
        queries st3 =
          (queries st ++
           [fetch_query "surnames" t None 0.40;
            fetch_query "surnames" t None 0.20])%list /\
        queries (snd (run (generate_last_name e d 0.40) env st)) =
          queries st3 /\
        (names = [] ->
         run (generate_last_name e d 0.40) env st =
           (Raise (no_surnames_error t), st3)) /\
        (names <> [] ->
         run (generate_last_name e d 0.40) env st =
           run (_weighted_select names t) env st3)).
Proof.
  intro Hsel.
  pose proof (select_ethnicity_frame _ _ _ _ _ _ Hsel) as (_ & Hq & _).
  split; intros st2 H1;
    destruct (fallback_after_empty_fetch _ _ _ _ _ _ H1)
      as (names & st3 & H2 & Hqs & Hfb);
    exists names, st3;
    (split; [exact H2|]); (split; [rewrite Hqs, Hq; reflexivity|]).
  - rewrite generate_first_name_run, Hsel, Hfb.
    destruct names as [|r names]; simpl is_empty; cbv iota.
    + repeat apply conj; [reflexivity | reflexivity | congruence].
    + repeat apply conj; [| discriminate | reflexivity].
      destruct (run (_weighted_select (r :: names) t) env st3)
        as [o st4] eqn:Hw.
      apply weighted_select_frame in Hw. simpl. apply Hw.
  - rewrite generate_last_name_run, Hsel, Hfb.
    destruct names as [|r names]; simpl is_empty; cbv iota.
    + repeat apply conj; [reflexivity | reflexivity | congruence].
    + repeat apply conj; [| discriminate | reflexivity].
      destruct (run (_weighted_select (r :: names) t) env st3)
        as [o st4] eqn:Hw.
      apply weighted_select_frame in Hw. simpl. apply Hw.
Qed.

Lemma weighted_select_ok_attr (names : list NameRecord) (t : string)
    (env : Env) (st st' : State) (r : NameRecord) :
  run (_weighted_select names t) env st = (Ok r, st') ->
  exists prob, prob_attr t = Some prob.
Proof.
  unfold _weighted_select.
  destruct names as [|r0 names]; [discriminate|].
  destruct (prob_attr t) as [prob|]; [eexists; reflexivity | discriminate].
Qed.

Lemma name_above_floor (table t : string) (g : option Gender) (p : Q)
    (env : Env) (st1 : State) (fail : exn) (r : NameRecord) (st' : State) :
  match run (fetch_with_fallback table t g p) env st1 with
  | (Raise x, st2) => (Raise x, st2)
  | (Ok names, st2) =>
      if is_empty names then (Raise fail, st2)
      else run (_weighted_select names t) env st2
  end = (Ok r, st') ->
  exists prob, prob_attr t = Some prob /\ Qmin p 0.20 <= prob r.
Proof.
  destruct (run (fetch_with_fallback table t g p) env st1)
    as [[names|x] st2] eqn:Hf; [|discriminate].
  destruct (is_empty names); [discriminate|].
  intro Hw.
  destruct (weighted_select_ok_attr _ _ _ _ _ _ Hw) as (prob & Hattr).
  exists prob. split; [exact Hattr|].
  apply weighted_select_frame in Hw. destruct Hw as (_ & _ & Hin & _).
  eapply fetch_with_fallback_threshold; eassumption.
Qed.

(** C2, as the code has it.  The record a successful [generate_first_name]
    or [generate_last_name] returns has, for the resolved category, a
    probability of at least the lower of the requested threshold and 0.20;
    so of at least 0.20 whenever the requested threshold is 0.20 or more. *)
Theorem returned_probability_floor (e : option Ethnicity)
    (g : option Gender) (d : option Distribution) (p : Q)
    (env : Env) (st st' : State) (r : NameRecord) :
  run (generate_first_name e g d p) env st = (Ok r, st') \/
  run (generate_last_name e d p) env st = (Ok r, st') ->
  exists t st1 prob,
    run (_select_ethnicity e d) env st = (Ok t, st1) /\
    prob_attr t = Some prob /\
    Qmin p 0.20 <= prob r /\
    (0.20 <= p -> 0.20 <= prob r).
Proof.
  rewrite generate_first_name_run, generate_last_name_run.
  destruct (run (_select_ethnicity e d) env st) as [[t|x] st1];
    [|intros [H|H]; discriminate].
  intros [H|H]; apply name_above_floor in H;
    destruct H as (prob & Hattr & Hmin);
    exists t, st1, prob; repeat apply conj; auto;
    intro Hp; rewrite (Q.min_r p 0.20 Hp) in Hmin; exact Hmin.
Qed.

(** C2, as stated, fails: a threshold below 0.20 is used as it is.  On the
    sample table, black female first names at threshold 0.10 include
    Jennifer, whose probability for the category is 0.15. *)
Lemma returned_probability_below_fallback :
  ~ (forall (e : option Ethnicity) (g : option Gender)
            (d : option Distribution) (p : Q) (env : Env) (st st' : State)
            (r : NameRecord) (t : string) (st1 : State)
            (prob : NameRecord -> Q),
        0 <= p <= 1 ->
        run (generate_first_name e g d p) env st = (Ok r, st') ->
        run (_select_ethnicity e d) env st = (Ok t, st1) ->
        prob_attr t = Some prob ->
        0.20 <= prob r).
Proof.
  intro H.
  specialize (H (Some BLACK) (Some FEMALE) None 0.10
                (sample_env (fun _ => 0)) initial_state
                (mkState (Some sample_db) 1
                   [fetch_query "first_names" "black" (Some FEMALE) 0.10])
                (mkNameRecord "Jennifer" (Some "F") 12000
                              0.70 0.15 0.10 0.03 0.02)
                "black" initial_state prob_black).
  assert (Hp : 0 <= 0.10 <= 1) by (split; discriminate).
  specialize (H Hp eq_refl eq_refl eq_refl).
  simpl in H. apply H. reflexivity.
Qed.

(** ** The sampler *)

Lemma Qsum_nonneg (ws : list Q) :
  (forall w, In w ws -> 0 <= w) -> 0 <= Qsum ws.
Proof.
  induction ws as [|w ws IH]; intro Hpos; simpl.
  - apply Qle_refl.
  - specialize (IH (fun v H => Hpos v (or_intror H))).
    specialize (Hpos w (or_introl eq_refl)). lra.
Qed.

Lemma Qsum_pos (ws : list Q) (w : Q) :
  (forall v, In v ws -> 0 <= v) -> In w ws -> 0 < w -> 0 < Qsum ws.
Proof.
  induction ws as [|v ws IH]; intros Hpos Hin Hw; simpl.
  - destruct Hin.
  - destruct Hin as [->|Hin].
    + pose proof (Qsum_nonneg ws (fun v H => Hpos v (or_intror H))). lra.
    + specialize (IH (fun v H => Hpos v (or_intror H)) Hin Hw).
      specialize (Hpos v (or_introl eq_refl)). lra.
Qed.

Lemma selection_weight_nonneg (prob : NameRecord -> Q) (r : NameRecord) :
  0 <= prob r -> (0 <= count r)%Z -> 0 <= selection_weight prob r.
Proof.
  intros Hp Hc. unfold selection_weight.
  apply Qmult_le_0_compat; [exact Hp|].
  assert (0 <= inject_Z (count r) / 100000).
  { apply Qle_shift_div_l; [reflexivity|].
    rewrite Qmult_0_l. change 0 with (inject_Z 0).
    rewrite <- Zle_Qle. exact Hc. }
  lra.
Qed.

Lemma selection_weight_pos (prob : NameRecord -> Q) (r : NameRecord) :
  0 < prob r -> (0 <= count r)%Z -> 0 < selection_weight prob r.
Proof.
  intros Hp Hc. unfold selection_weight.
  assert (0 <= inject_Z (count r) / 100000).
  { apply Qle_shift_div_l; [reflexivity|].
    rewrite Qmult_0_l. change 0 with (inject_Z 0).
    rewrite <- Zle_Qle. exact Hc. }
  apply Qmult_lt_0_compat; lra.
Qed.

(** The total is positive as soon as one candidate has a positive
    probability for the category: after a fetch with a positive threshold,
    for instance. *)
Lemma total_weight_pos (names : list NameRecord) (prob : NameRecord -> Q) :
  (forall r, In r names -> 0 <= prob r /\ (0 <= count r)%Z) ->
  (exists r, In r names /\ 0 < prob r) ->
  0 < Qsum (map (selection_weight prob) names).
Proof.
  intros Hdom (r0 & Hin0 & Hp0).
  apply Qsum_pos with (w := selection_weight prob r0).
  - intros w Hw. apply in_map_iff in Hw. destruct Hw as (r & <- & Hr).
    destruct (Hdom r Hr). now apply selection_weight_nonneg.
  - apply in_map. exact Hin0.
  - destruct (Hdom r0 Hin0). now apply selection_weight_pos.
Qed.





(** The draw is not an argmax: on the Hispanic first names of the sample
    table the heavier candidate is Jose, and [u = 0] selects Maria. *)
Example weighted_select_not_argmax :
  let maria := mkNameRecord "Maria" (Some "F") 10000 0.10 0.05 0.75 0.08 0.02 in
  let jose := mkNameRecord "Jose" (Some "M") 8000 0.08 0.03 0.80 0.07 0.02 in
  selection_weight prob_hispanic maria < selection_weight prob_hispanic jose /\
  fst (run (_weighted_select [maria; jose] "hispanic")
           (sample_env (fun _ => 0)) initial_state) = Ok maria /\
  fst (run (_weighted_select [maria; jose] "hispanic")
           (sample_env (fun _ => 0.5)) initial_state) = Ok jose.
Proof.
  repeat apply conj; reflexivity.
Qed.

(** What the sampler does with a single candidate. *)
Lemma weighted_select_singleton_run (r : NameRecord) (t : string)
    (prob : NameRecord -> Q) (env : Env) (st : State) :
  prob_attr t = Some prob ->
  run (_weighted_select [r] t) env st =
  if Qle_bool (selection_weight prob r) 0
  then (Raise (ValueError "Total of weights must be greater than zero"), st)
  else (Ok r, mkState (_conn st) (S (draws st)) (queries st)).
Proof.
  intro Hattr. unfold _weighted_select. rewrite Hattr.
  apply choices_singleton.
Qed.

(** C8, as the code has it.  On a single candidate whose weight for the
    category is positive (for a count that is not negative: whose
    probability for the category is positive) the sampler returns that
    candidate, whatever the random source yields. *)
Theorem weighted_select_singleton (r : NameRecord) (t : string)
    (prob : NameRecord -> Q) (env : Env) (st : State) :
  prob_attr t = Some prob ->
  0 < prob r * (1 + inject_Z (count r) / 100000) ->
  run (_weighted_select [r] t) env st =
    (Ok r, mkState (_conn st) (S (draws st)) (queries st)).
Proof.
  intros Hattr Hw.
  rewrite (weighted_select_singleton_run r t prob env st Hattr).
  replace (Qle_bool (selection_weight prob r) 0) with false; [reflexivity|].
  symmetry. apply Qle_bool_false_iff. exact Hw.
Qed.

(** C8, as stated, fails: a single candidate whose probability for the
    category is 0 has weight 0, and [random.choices] refuses weights whose
    total is not positive. *)
Lemma weighted_select_singleton_zero_weight :
  ~ (forall (r : NameRecord) (t : string) (prob : NameRecord -> Q)
            (env : Env) (st : State),
        prob_attr t = Some prob ->
        exists st', run (_weighted_select [r] t) env st = (Ok r, st')).
Proof.
  intro H.
  destruct (H (mkNameRecord "Wang" None 8000 0 0.01 0.02 0.95 0.02)
              "white" prob_white (sample_env (fun _ => 0.5)) initial_state
              eq_refl) as (st' & Hrun).
  rewrite (weighted_select_singleton_run _ "white" prob_white _ _ eq_refl)
    in Hrun.
  discriminate Hrun.
Qed.

(** ** Full names *)

Lemma ethnicity_of_value_sound (s : string) (e : Ethnicity) :
  ethnicity_of_value s = Some e -> ethnicity_value e = s.
Proof.
  unfold ethnicity_of_value.
  repeat match goal with
         | |- context [(s =? ?k)%string] =>
             destruct (String.eqb_spec s k) as [->|_];
             [intro E; injection E as <-; reflexivity |]
         end.
  discriminate.
Qed.

Lemma ethnicity_of_value_complete (e : Ethnicity) :
  ethnicity_of_value (ethnicity_value e) = Some e.
Proof. destruct e; reflexivity. Qed.

Lemma concrete_category_inv (s : string) :
  concrete_category s = true ->
  exists e, ethnicity_of_value s = Some e /\ is_concrete e = true /\
            ethnicity_value e = s.
Proof.
  unfold concrete_category.
  destruct (ethnicity_of_value s) as [e|] eqn:He; [|discriminate].
  intro Hc. exists e. repeat apply conj; auto.
  now apply ethnicity_of_value_sound.
Qed.


Lemma generate_full_name_run (e : option Ethnicity) (g : option Gender)
    (d : option Distribution) (p : Q) (env : Env) (st : State) :
  run (generate_full_name e g d p) env st =
  match run (_select_ethnicity e d) env st with
  | (Raise x, st1) => (Raise x, st1)
  | (Ok t, st1) =>
      match ethnicity_of_value t with
      | None =>
          (Raise (ValueError ("'" ++ t ++ "' is not a valid Ethnicity")), st1)
      | Some e_t =>
          run (first_name <- generate_first_name (Some e_t) g d p ;;
               last_name <- generate_last_name (Some e_t) d p ;;
               ret (first_name, last_name)) env st1
      end
  end.
Proof.
  unfold generate_full_name, Ethnicity_call, run, bind.
  destruct (_select_ethnicity e d env st) as [[t|x] st1]; [|reflexivity].
  destruct (ethnicity_of_value t) as [e_t|]; [|reflexivity].
  unfold ret at 1.
  destruct (generate_first_name (Some e_t) g d p env st1)
    as [[first|x] st2]; reflexivity.
Qed.

(** The queries and draws of a request for one name, once its category
    is resolved. *)
Lemma generate_name_concrete_trace (table t : string)
    (g : option Gender) (p : Q) (fail : exn) (env : Env)
    (st st' : State) (o : Outcome NameRecord) :
  match run (fetch_with_fallback table t g p) env st with
  | (Raise x, st2) => (Raise x, st2)
  | (Ok names, st2) =>
      if is_empty names then (Raise fail, st2)
      else run (_weighted_select names t) env st2
  end = (o, st') ->
  exists qs,
    queries st' = (queries st ++ qs)%list /\
    Forall (fun q => q_table q = table /\
                     q_ethnicity q = t /\
                     q_gender q = gender_param table g) qs /\
    (length qs <= 2)%nat /\
    match o with
    | Ok r => draws st' = S (draws st) /\ qs <> []
    | Raise _ => draws st' = draws st
    end.
Proof.
  destruct (run (fetch_with_fallback table t g p) env st)
    as [[names|x] st2] eqn:Hf;
    apply fetch_with_fallback_queries in Hf;
    destruct Hf as (Hd & qs & Hq & Hall & Hlen & Hnil).
  - destruct (is_empty names).
    + intro H. injection H as <- <-. exists qs. auto.
    + intro Hw. apply weighted_select_frame in Hw.
      destruct Hw as (_ & Hq' & Ho).
      exists qs. rewrite Hq', Hq. repeat apply conj; auto.
      destruct o as [r|x].
      * destruct Ho as [_ Ho]. split; [congruence|].
        intros ->. destruct (Hnil eq_refl) as (Habs & _). discriminate Habs.
      * subst st'. exact Hd.
  - intro H. injection H as <- <-. exists qs. auto.
Qed.





(** With a key "any" in the distribution the category of a full name can
    be resolved again by each half: here to white for the first name and to
    black for the surname. *)
Example full_name_any_key :
  let d := Some [("any", 1); ("white", 1); ("black", 1)] in
  let u := fun n : nat =>
             match n with
             | 1%nat => 1 # 3
             | 3%nat => 2 # 3
             | _ => 0
             end in
  map q_ethnicity
      (queries (snd (run (generate_full_name None None d 0.40)
                         (sample_env u) initial_state))) =
  ["white"; "black"].
Proof. reflexivity. Qed.

(** ** The accessor *)

Lemma gender_param_some (table : string) (g : option Gender) (s : string) :
  gender_param table g = Some s <->
  exists g', g = Some g' /\ g' <> GENDER_ANY /\ table = "first_names" /\
             s = gender_value g'.
Proof.
  unfold gender_param. split.
  - destruct g as [g'|]; [|discriminate].
    destruct (String.eqb_spec table "first_names") as [->|Hne];
      destruct g'; simpl; try discriminate;
      intro H; injection H as <-; eexists; repeat apply conj;
      try reflexivity; discriminate.
  - intros (g' & -> & Hany & -> & ->).
    destruct g'; simpl; try reflexivity. congruence.
Qed.


(** The example of the specification: a first-names table with Maria
    (hispanic 0.75) and Wei (asian 0.88). *)
Example fetch_names_maria_wei :
  let maria := mkRow "Maria" (Some "F") 10000 0.10 0.05 0.75 0.08 0.02 in
  let wei := mkRow "Wei" (Some "M") 3000 0.05 0.02 0.03 0.88 0.02 in
  let env := mkEnv "data/names.db"
               (Some (mkDatabase (Some (mkTable true [maria; wei])) None))
               (fun _ => 0) in
  fst (run (_fetch_names "first_names" "hispanic" None 0.40) env
           initial_state) = Ok [record_of_row true maria] /\
  fst (run (_fetch_names "first_names" "asian" None 0.40) env
           initial_state) = Ok [record_of_row true wei].
Proof. split; reflexivity. Qed.

(** ** Errors *)

Lemma choices_raises {A} (population : list A) (weights : list Q)
    (env : Env) (st st' : State) (x : exn) :
  run (choices population weights) env st = (Raise x, st') ->
  x = ValueError "The number of weights does not match the population" \/
  x = IndexError "list index out of range" \/
  x = ValueError "Total of weights must be greater than zero".
Proof.
  unfold choices, run.
  destruct (negb (length (accumulate weights) =? length population)%nat).
  { unfold raise. intro H. injection H as <- _. auto. }
  destruct (nth_error (accumulate weights) (length (accumulate weights) - 1))
    as [total|].
  2:{ unfold raise. intro H. injection H as <- _. auto. }
  destruct (Qle_bool total 0).
  { unfold raise. intro H. injection H as <- _. auto. }
  unfold bind, random.
  destruct (nth_error population _).
  - discriminate.
  - unfold raise. intro H. injection H as <- _. auto.
Qed.

Lemma select_ethnicity_raises (e : option Ethnicity)
    (d : option Distribution) (env : Env) (st st' : State) (x : exn) :
  run (_select_ethnicity e d) env st = (Raise x, st') ->
  x <> no_names_available.
Proof.
  unfold _select_ethnicity.
  assert (Hc : forall pop ws,
             run (@choices string pop ws) env st = (Raise x, st') ->
             x <> no_names_available).
  { intros pop ws H. apply choices_raises in H.
    destruct H as [-> | [-> | ->]]; discriminate. }
  destruct e as [e'|]; [destruct (is_concrete e')|]; try apply Hc.
  discriminate.
Qed.

Lemma weighted_select_nonempty_raises (names : list NameRecord) (t : string)
    (env : Env) (st st' : State) (x : exn) :
  names <> [] ->
  run (_weighted_select names t) env st = (Raise x, st') ->
  x <> no_names_available.
Proof.
  unfold _weighted_select. destruct names as [|r names]; [congruence|].
  intros _. destruct (prob_attr t).
  - intro H. apply choices_raises in H.
    destruct H as [-> | [-> | ->]]; discriminate.
  - unfold run, raise. intro H. injection H as <- _. discriminate.
Qed.

Lemma fetch_with_fallback_raises (table t : string) (g : option Gender)
    (p : Q) (env : Env) (st st' : State) (x : exn) :
  run (fetch_with_fallback table t g p) env st = (Raise x, st') ->
  exn_class x = CFileNotFoundError \/ exn_class x = COperationalError.
Proof.
  assert (Hsql : forall db q names,
             records_of (sqlite_execute db q) = names ->
             match names with
             | Ok _ => True
             | Raise y => exn_class y = COperationalError
             end).
  { intros db q names <-. unfold sqlite_execute.
    destruct (lookup_table db (q_table q)); [|reflexivity].
    destruct (prob_column (q_ethnicity q)); [|reflexivity].
    match goal with |- context [if ?c then _ else _] => destruct c end;
      simpl; auto. }
  rewrite fetch_with_fallback_run.
  destruct (reachable env st) as [db|].
  - destruct (records_of (sqlite_execute db (fetch_query table t g p)))
      as [names|y] eqn:H1.
    + destruct (is_empty names && Qlt_bool 0.20 p); [|discriminate].
      intro H. injection H as H2 _.
      right. exact (Hsql _ _ _ H2).
    + intro H. injection H as <- _. right. exact (Hsql _ _ _ H1).
  - intro H. injection H as <- _. left. reflexivity.
Qed.

Lemma no_candidates_not_no_names (t : string) (g : Gender) :
  no_first_names_error t g <> no_names_available /\
  no_surnames_error t <> no_names_available.
Proof.
  unfold no_first_names_error, no_surnames_error, no_names_available.
  split; simpl; discriminate.
Qed.

(** C6.  On an empty list of candidates the sampler fails, before any
    draw, with the error "No names available for selection".  This is not
    the error of a request without candidates, whatever the category and
    gender; moreover no failure of [generate_first_name] or
    [generate_last_name] is this error, so a caller who sees it knows the
    sampler was handed an empty list. *)
Theorem empty_candidates_error_distinct :
  (forall t env st,
      run (_weighted_select [] t) env st = (Raise no_names_available, st)) /\
  (forall t g, no_first_names_error t g <> no_names_available) /\
  (forall t, no_surnames_error t <> no_names_available) /\
  (forall e g d p env st x st',
      run (generate_first_name e g d p) env st = (Raise x, st') ->
      x <> no_names_available) /\
  (forall e d p env st x st',
      run (generate_last_name e d p) env st = (Raise x, st') ->
      x <> no_names_available).
Proof.
  assert (Hcommon :
            forall table t g p fail env st1 x st',
              fail <> no_names_available ->
              match run (fetch_with_fallback table t g p) env st1 with
              | (Raise y, st2) => (Raise y, st2)
              | (Ok names, st2) =>
                  if is_empty names then (Raise fail, st2)
                  else run (_weighted_select names t) env st2
              end = (Raise x, st') ->
              x <> no_names_available).
  { intros table t g p fail env st1 x st' Hfail.
    destruct (run (fetch_with_fallback table t g p) env st1)
      as [[names|y] st2] eqn:Hf.
    - destruct (is_empty names) eqn:Hempty.
      + intro H. injection H as <- _. exact Hfail.
      + apply weighted_select_nonempty_raises.
        intros ->. discriminate Hempty.
    - intro H. injection H as <- _.
      apply fetch_with_fallback_raises in Hf.
      destruct Hf as [Hf|Hf]; intros ->; discriminate Hf. }
  repeat apply conj.
  - reflexivity.
  - intros t g. apply no_candidates_not_no_names.
  - intro t. apply (no_candidates_not_no_names t MALE).
  - intros e g d p env st x st'. rewrite generate_first_name_run.
    destruct (run (_select_ethnicity e d) env st) as [[t|y] st1] eqn:Hsel.
    + apply Hcommon. apply no_candidates_not_no_names.
    + intro H. injection H as <- _.
      eapply select_ethnicity_raises. exact Hsel.
  - intros e d p env st x st'. rewrite generate_last_name_run.
    destruct (run (_select_ethnicity e d) env st) as [[t|y] st1] eqn:Hsel.
    + apply Hcommon. apply (no_candidates_not_no_names t MALE).
    + intro H. injection H as <- _.
      eapply select_ethnicity_raises. exact Hsel.
Qed.

(** Both errors are Python [ValueError]s; they differ by their message. *)
Remark empty_candidates_error_class (t : string) (g : Gender) :
  exn_class no_names_available = CValueError /\
  exn_class (no_first_names_error t g) = CValueError /\
  exn_class (no_surnames_error t) = CValueError /\
  exn_message no_names_available <> exn_message (no_first_names_error t g) /\
  exn_message no_names_available <> exn_message (no_surnames_error t).
Proof.
  repeat apply conj; try reflexivity; simpl; discriminate.
Qed.

(** ** A missing or empty source *)

Lemma fetch_with_fallback_unreachable (table t : string) (g : option Gender)
    (p : Q) (env : Env) (st : State) :
  reachable env st = None ->
  run (fetch_with_fallback table t g p) env st =
    (Raise (database_not_found env), st).
Proof.
  intro H. rewrite fetch_with_fallback_run, H. reflexivity.
Qed.

Lemma generate_names_unreachable (e : option Ethnicity) (g : option Gender)
    (d : option Distribution) (p : Q) (env : Env) (st st1 : State)
    (t : string) :
  reachable env st1 = None ->
  run (_select_ethnicity e d) env st = (Ok t, st1) ->
  run (generate_first_name e g d p) env st =
    (Raise (database_not_found env), st1) /\
  run (generate_last_name e d p) env st =
    (Raise (database_not_found env), st1).
Proof.
  intros Hdb Hsel.
  rewrite generate_first_name_run, generate_last_name_run, Hsel.
  rewrite !fetch_with_fallback_unreachable by exact Hdb.
  split; reflexivity.
Qed.

Lemma generate_full_name_unreachable (e : option Ethnicity)
    (g : option Gender) (d : option Distribution) (p : Q)
    (env : Env) (st st1 : State) (t : string) :
  reachable env st1 = None ->
  run (_select_ethnicity e d) env st = (Ok t, st1) ->
  concrete_category t = true ->
  run (generate_full_name e g d p) env st =
    (Raise (database_not_found env), st1).
Proof.
  intros Hdb Hsel Hct.
  destruct (concrete_category_inv t Hct) as (e_t & He & Hc & Hv).
  rewrite generate_full_name_run, Hsel, He.
  unfold run at 1, bind.
  fold (run (generate_first_name (Some e_t) g d p) env st1).
  destruct (generate_names_unreachable (Some e_t) g d p env st1 st1 t Hdb)
    as [H1 _].
  { rewrite <- Hv. now apply select_ethnicity_concrete. }
  rewrite H1. reflexivity.
Qed.

Lemma reachable_after_select (e : option Ethnicity)
    (d : option Distribution) (env : Env) (st st1 : State)
    (o : Outcome string) :
  run (_select_ethnicity e d) env st = (o, st1) ->
  reachable env st1 = reachable env st.
Proof.
  intro H. apply select_ethnicity_frame in H. destruct H as (Hc & _).
  unfold reachable. now rewrite Hc.
Qed.

Lemma fetch_with_fallback_no_table (table t : string) (g : option Gender)
    (p : Q) (env : Env) (st : State) (db : Database) :
  reachable env st = Some db ->
  lookup_table db table = None ->
  fst (run (fetch_with_fallback table t g p) env st) =
    Raise (OperationalError ("no such table: " ++ table)).
Proof.
  intros Hdb Htb. rewrite fetch_with_fallback_run, Hdb.
  unfold sqlite_execute. simpl q_table. rewrite Htb. reflexivity.
Qed.

(** C7, as the code has it.  For a request whose category resolves:
    when the database file does not exist (and no connection is open), the
    request fails with [FileNotFoundError] and issues no query
    ([generate_first_name] and [generate_last_name] always,
    [generate_full_name] and a batch of at least one name when the category
    is one of the five); when the database is there and the table is not,
    the request fails with the [OperationalError] of SQLite.  Neither error
    has the class of the no-candidates error.  (A table that exists and is
    empty is not detected.) *)
Theorem missing_source_reported (e : option Ethnicity) (g : option Gender)
    (d : option Distribution) (p : Q) (env : Env) (st st1 : State)
    (t : string) :
  run (_select_ethnicity e d) env st = (Ok t, st1) ->
  (_conn st = None -> disk env = None ->
   run (generate_first_name e g d p) env st =
     (Raise (database_not_found env), st1) /\
   run (generate_last_name e d p) env st =
     (Raise (database_not_found env), st1) /\
   (concrete_category t = true ->
    run (generate_full_name e g d p) env st =
      (Raise (database_not_found env), st1)) /\
   (forall n include_surnames,
       (0 < n)%Z ->
       include_surnames = false \/ concrete_category t = true ->
       run (generate_batch n e g include_surnames d) env st =
         (Raise (database_not_found env), st1)) /\
   queries st1 = queries st) /\
  (forall db,
      reachable env st = Some db ->
      (first_names db = None ->
       fst (run (generate_first_name e g d p) env st) =
         Raise (OperationalError "no such table: first_names")) /\
      (surnames db = None ->
       fst (run (generate_last_name e d p) env st) =
         Raise (OperationalError "no such table: surnames"))) /\
  (forall t' g' msg,
      exn_class (database_not_found env) = CFileNotFoundError /\
      exn_class (no_first_names_error t' g') = CValueError /\
      exn_class (no_surnames_error t') = CValueError /\
      exn_class (OperationalError msg) = COperationalError).
Proof.
  intros Hsel.
  pose proof (select_ethnicity_frame _ _ _ _ _ _ Hsel) as (Hc1 & Hq1 & _).
  pose proof (reachable_after_select _ _ _ _ _ _ Hsel) as Hreach.
  split; [|split].
  - intros Hconn Hdisk.
    assert (Hdb : reachable env st1 = None).
    { unfold reachable. rewrite Hc1, Hconn. exact Hdisk. }
    destruct (generate_names_unreachable e g d p env st st1 t Hdb Hsel)
      as [H1 H2].
    split; [exact H1|]. split; [exact H2|]. split.
    { now apply generate_full_name_unreachable. }
    split; [|exact Hq1].
    intros n inc Hn Hinc. unfold generate_batch.
    destruct (Z.to_nat n) as [|k] eqn:Hk; [lia|].
    cbn [batch_loop]. unfold run at 1, bind.
    destruct inc.
    + destruct Hinc as [Hinc|Hct]; [discriminate|].
      fold (run (generate_full_name e g d default_min_probability) env st).
      rewrite (generate_full_name_unreachable e g d _ env st st1 t
                 Hdb Hsel Hct).
      reflexivity.
    + fold (run (generate_first_name e g d default_min_probability) env st).
      destruct (generate_names_unreachable e g d default_min_probability
                  env st st1 t Hdb Hsel) as [H1' _].
      rewrite H1'. reflexivity.
  - intros db Hdb. rewrite <- Hreach in Hdb. split; intro Htb.
    + rewrite generate_first_name_run, Hsel.
      pose proof (fetch_with_fallback_no_table "first_names" t
                    (Some (gender_or_any g)) p env st1 db Hdb Htb) as Hf.
      destruct (run (fetch_with_fallback "first_names" t
                       (Some (gender_or_any g)) p) env st1) as [o st2].
      simpl in Hf. subst o. reflexivity.
    + rewrite generate_last_name_run, Hsel.
      pose proof (fetch_with_fallback_no_table "surnames" t None p env st1
                    db Hdb Htb) as Hf.
      destruct (run (fetch_with_fallback "surnames" t None p) env st1)
        as [o st2].
      simpl in Hf. subst o. reflexivity.
  - intros t' g' msg. repeat apply conj; reflexivity.
Qed.

(** C7, as stated, fails for an empty table: the request on an existing
    database whose first-names table has no row fails with the
    no-candidates error itself. *)
Lemma empty_table_not_reported :
  ~ (forall (env : Env) (st st1 st' : State) (db : Database) (tb : Table)
            (e : option Ethnicity) (g : option Gender)
            (d : option Distribution) (p : Q) (t : string)
            (o : Outcome NameRecord),
        reachable env st = Some db ->
        first_names db = Some tb ->
        table_rows tb = [] ->
        run (_select_ethnicity e d) env st = (Ok t, st1) ->
        run (generate_first_name e g d p) env st = (o, st') ->
        exists x, o = Raise x /\
                  x <> no_first_names_error t (gender_or_any g)).
Proof.
  intro H.
  destruct (H (mkEnv "data/names.db" (Some empty_db) (fun _ => 0))
              initial_state initial_state
              (mkState (Some empty_db) 0
                 [fetch_query "first_names" "white" (Some GENDER_ANY) 0.40;
                  fetch_query "first_names" "white" (Some GENDER_ANY) 0.20])
              empty_db (mkTable true []) (Some WHITE) None None 0.40
              "white" (Raise (no_first_names_error "white" GENDER_ANY))
              eq_refl eq_refl eq_refl eq_refl eq_refl)
    as (x & Hx & Hne).
  injection Hx as <-. apply Hne. reflexivity.
Qed.

(** The same request fails in the same way on an empty table and on a
    table without a match. *)
Example empty_table_same_as_no_match :
  fst (run (generate_first_name (Some OTHER) None None 0.40)
           (mkEnv "data/names.db" (Some empty_db) (fun _ => 0))
           initial_state) =
  Raise (no_first_names_error "other" GENDER_ANY) /\
  fst (run (generate_first_name (Some OTHER) None None 0.40)
           (sample_env (fun _ => 0)) initial_state) =
  Raise (no_first_names_error "other" GENDER_ANY).
Proof. split; reflexivity. Qed.

(** ** Batches *)

Lemma batch_loop_spec (n : nat) (e : option Ethnicity) (g : option Gender)
    (include_surnames : bool) (d : option Distribution) :
  forall (acc results : list Dict) (env : Env) (st st' : State),
    run (batch_loop n e g include_surnames d acc) env st = (Ok results, st') ->
    exists new,
      results = (acc ++ new)%list /\ length new = n /\
      Forall (batch_entry_ok include_surnames) new.
Proof.
  induction n as [|n IH]; intros acc results env st st'.
  - cbn [batch_loop]. unfold run, ret. intro H. injection H as <- _.
    exists []. rewrite app_nil_r. auto.
  - cbn [batch_loop]. unfold run at 1, bind at 1.
    match goal with
    | |- context [?m env st] =>
        destruct (m env st) as [[entry|x] st1] eqn:Hentry
    end; [|discriminate].
    intro H. apply IH in H. destruct H as (new & -> & Hlen & Hall).
    exists (entry :: new). rewrite <- app_assoc. simpl.
    repeat apply conj; auto.
    constructor; [|exact Hall].
    destruct include_surnames; unfold bind in Hentry.
    + destruct (generate_full_name e g d default_min_probability env st)
        as [[names|y] st2]; [|discriminate].
      unfold ret in Hentry. injection Hentry as <- _.
      split; reflexivity.
    + destruct (generate_first_name e g d default_min_probability env st)
        as [[first|y] st2]; [|discriminate].
      unfold ret in Hentry. injection Hentry as <- _.
      split; [reflexivity | discriminate].
Qed.

(** C9.  A successful [generate_batch] with [count = N >= 0] returns N
    entries; every entry has a key first_name, and a key full_name too when
    surnames are included. *)
Theorem generate_batch_count (n : Z) (e : option Ethnicity)
    (g : option Gender) (include_surnames : bool) (d : option Distribution)
    (env : Env) (st st' : State) (results : list Dict) :
  (0 <= n)%Z ->
  run (generate_batch n e g include_surnames d) env st = (Ok results, st') ->
  Z.of_nat (length results) = n /\
  Forall (fun entry =>
            has_key entry "first_name" = true /\
            (include_surnames = true -> has_key entry "full_name" = true))
         results.
Proof.
  intros Hn Hrun. unfold generate_batch in Hrun.
  apply batch_loop_spec in Hrun.
  destruct Hrun as (new & -> & Hlen & Hall).
  simpl. split; [lia | exact Hall].
Qed.

(** ** Gender *)

Lemma generate_first_name_queries (e : option Ethnicity) (g : option Gender)
    (d : option Distribution) (p : Q) (env : Env) (st st' : State)
    (o : Outcome NameRecord) :
  run (generate_first_name e g d p) env st = (o, st') ->
  exists qs,
    queries st' = (queries st ++ qs)%list /\
    Forall (fun q => q_table q = "first_names" /\
                     q_gender q =
                       gender_param "first_names" (Some (gender_or_any g)))
           qs.
Proof.
  rewrite generate_first_name_run.
  destruct (run (_select_ethnicity e d) env st) as [[t|x] st1] eqn:Hsel;
    apply select_ethnicity_frame in Hsel; destruct Hsel as (_ & Hq1 & _).
  - intro H. apply generate_name_concrete_trace in H.
    destruct H as (qs & Hq & Hall & _). exists qs.
    split; [congruence|].
    eapply Forall_impl; [|exact Hall]. intros q (Ht & _ & Hg). auto.
  - intro H. injection H as _ <-. exists []. rewrite app_nil_r. auto.
Qed.

(** C10.  [generate_first_name] without a gender is [generate_first_name]
    with the gender ANY: the same outcome and the same final state (so the
    same queries and the same draws), for every source of randomness; and
    no query of either request carries a gender parameter. *)
Theorem gender_omitted_is_any (e : option Ethnicity)
    (d : option Distribution) (p : Q) (env : Env) (st : State) :
  run (generate_first_name e None d p) env st =
    run (generate_first_name e (Some GENDER_ANY) d p) env st /\
  exists qs,
    queries (snd (run (generate_first_name e None d p) env st)) =
      (queries st ++ qs)%list /\
    Forall (fun q => q_gender q = None) qs.
Proof.
  split; [reflexivity|].
  destruct (run (generate_first_name e None d p) env st) as [o st'] eqn:Hrun.
  apply generate_first_name_queries in Hrun.
  destruct Hrun as (qs & Hq & Hall). exists qs. split; [exact Hq|].
  eapply Forall_impl; [|exact Hall]. intros q (_ & Hg). exact Hg.
Qed.

(** ** The theorems at work on the sample data *)

Lemma threshold_fallback_once_witness :
  let env := sample_env (fun _ => 0.5) in
  let st3 (table : string) (g : option Gender) :=
    mkState (Some sample_db) 0
      [fetch_query table "other" g 0.40; fetch_query table "other" g 0.20] in
  run (generate_first_name (Some OTHER) (Some FEMALE) None 0.40) env
      initial_state =
    (Raise (no_first_names_error "other" FEMALE),
     st3 "first_names" (Some FEMALE)) /\
  run (generate_last_name (Some OTHER) None 0.40) env initial_state =
    (Raise (no_surnames_error "other"), st3 "surnames" None).
Proof.
  intros env st3.
  destruct (threshold_fallback_once (Some OTHER) (Some FEMALE) None env
              initial_state initial_state "other" eq_refl) as [Hf Hl].
  split.
  - destruct (Hf (mkState (Some sample_db) 0
                    [fetch_query "first_names" "other" (Some FEMALE) 0.40])
                 eq_refl) as (names & s3 & H2 & _ & _ & Hempty & _).
    vm_compute in H2. injection H2 as <- <-. exact (Hempty eq_refl).
  - destruct (Hl (mkState (Some sample_db) 0
                    [fetch_query "surnames" "other" None 0.40])
                 eq_refl) as (names & s3 & H2 & _ & _ & Hempty & _).
    vm_compute in H2. injection H2 as <- <-. exact (Hempty eq_refl).
Defined.

Lemma returned_probability_floor_witness :
  exists t st1 prob,
    run (_select_ethnicity (Some BLACK) None) (sample_env (fun _ => 0))
        initial_state = (Ok t, st1) /\
    prob_attr t = Some prob /\
    Qmin 0.10 0.20 <=
      prob (mkNameRecord "Jennifer" (Some "F") 12000
                         0.70 0.15 0.10 0.03 0.02) /\
    (0.20 <= 0.10 ->
     0.20 <= prob (mkNameRecord "Jennifer" (Some "F") 12000
                                0.70 0.15 0.10 0.03 0.02)).
Proof.
  apply (returned_probability_floor (Some BLACK) (Some FEMALE) None 0.10
           (sample_env (fun _ => 0)) initial_state
           (mkState (Some sample_db) 1
              [fetch_query "first_names" "black" (Some FEMALE) 0.10])).
  left. reflexivity.
Defined.




Lemma empty_candidates_error_distinct_witness :
  run (_weighted_select [] "other") (sample_env (fun _ => 0)) initial_state =
    (Raise no_names_available, initial_state) /\
  no_first_names_error "other" GENDER_ANY <> no_names_available.
Proof.
  destruct empty_candidates_error_distinct as (Hs & _ & _ & Hf & _).
  split.
  - apply Hs.
  - apply (Hf (Some OTHER) None None 0.40 (sample_env (fun _ => 0))
              initial_state (no_first_names_error "other" GENDER_ANY)
              (mkState (Some sample_db) 0
                 [fetch_query "first_names" "other" (Some GENDER_ANY) 0.40;
                  fetch_query "first_names" "other" (Some GENDER_ANY) 0.20])).
    reflexivity.
Defined.

Lemma missing_source_reported_witness :
  let env := mkEnv "data/names.db" None (fun _ => 0.5) in
  let env' := mkEnv "data/names.db"
                (Some (mkDatabase None (Some sample_surnames)))
                (fun _ => 0.5) in
  run (generate_first_name None None None 0.40) env initial_state =
    (Raise (database_not_found env), mkState None 1 []) /\
  run (generate_full_name None None None 0.40) env initial_state =
    (Raise (database_not_found env), mkState None 1 []) /\
  run (generate_batch 3 None None true None) env initial_state =
    (Raise (database_not_found env), mkState None 1 []) /\
  fst (run (generate_first_name None None None 0.40) env' initial_state) =
    Raise (OperationalError "no such table: first_names").
Proof.
  intros env env'.
  destruct (missing_source_reported None None None 0.40 env initial_state
              (mkState None 1 []) "white" eq_refl)
    as (H & _ & _).
  destruct (H eq_refl eq_refl) as (H1 & _ & H3 & H4 & _).
  destruct (missing_source_reported None None None 0.40 env' initial_state
              (mkState None 1 []) "white" eq_refl)
    as (_ & H' & _).
  destruct (H' _ eq_refl) as (H5 & _).
  split; [exact H1|]. split; [|split].
  - apply H3. reflexivity.
  - apply H4; [reflexivity | right; reflexivity].
  - apply H5. reflexivity.
Defined.

Lemma weighted_select_singleton_witness :
  let maria := mkNameRecord "Maria" (Some "F") 10000 0.10 0.05 0.75 0.08 0.02 in
  run (_weighted_select [maria] "hispanic") (sample_env (fun _ => 0.5))
      initial_state = (Ok maria, mkState None 1 []).
Proof.
  intro maria.
  apply (weighted_select_singleton maria "hispanic" prob_hispanic
           (sample_env (fun _ => 0.5)) initial_state).
  - reflexivity.
  - reflexivity.
Defined.

Lemma generate_batch_count_witness :
  let out := run (generate_batch 2 (Some HISPANIC) None true None)
                 (sample_env (fun _ => 0.5)) initial_state in
  exists results,
    fst out = Ok results /\
    Z.of_nat (length results) = 2%Z /\
    Forall (fun entry =>
              has_key entry "first_name" = true /\
              (true = true -> has_key entry "full_name" = true)) results.
Proof.
  intro out.
  destruct out as [[results|x] st'] eqn:Hout; vm_compute in Hout;
    [|discriminate Hout].
  exists results. split; [reflexivity|].
  apply (generate_batch_count 2 (Some HISPANIC) None true None
           (sample_env (fun _ => 0.5)) initial_state st' results).
  - discriminate.
  - injection Hout as <- <-. vm_compute. reflexivity.
Defined.

(** * Further properties of the generator and of its callers *)

(** ** The dominant category of a record *)

Lemma max_key_from_spec (items : list (string * Q)) :
  forall (k0 : string) (v0 : Q),
  exists i v,
    nth_error ((k0, v0) :: items) i = Some (max_key_from k0 v0 items, v) /\
    forall j k w,
      nth_error ((k0, v0) :: items) j = Some (k, w) ->
      w <= v /\ ((j < i)%nat -> w < v).
Proof.
  induction items as [|[k1 v1] items IH]; intros k0 v0.
  - exists 0%nat, v0. split; [reflexivity|].
    intros j k w Hj. destruct j as [|j].
    + injection Hj as <- <-. split; [apply Qle_refl | lia].
    + destruct j; discriminate Hj.
  - cbn [max_key_from]. destruct (Qlt_bool v0 v1) eqn:Hcmp.
    + apply Qlt_bool_iff in Hcmp.
      destruct (IH k1 v1) as (i & v & Hi & Hmax).
      exists (S i), v. split; [exact Hi|].
      intros j k w Hj. destruct j as [|j].
      * injection Hj as <- <-.
        destruct (Hmax 0%nat k1 v1 eq_refl) as [Hle _].
        split; [lra | intros _; lra].
      * destruct (Hmax j k w Hj) as [Hle Hlt].
        split; [exact Hle | intro Hji; apply Hlt; lia].
    + apply Qlt_bool_false_iff in Hcmp.
      destruct (IH k0 v0) as (i & v & Hi & Hmax).
      destruct i as [|i].
      * exists 0%nat, v. split; [exact Hi|].
        intros j k w Hj. split; [|lia].
        destruct j as [|j]; [exact (proj1 (Hmax 0%nat k w Hj))|].
        destruct j as [|j].
        -- injection Hj as <- <-. injection Hi as _ <-. exact Hcmp.
        -- exact (proj1 (Hmax (S j) k w Hj)).
      * exists (S (S i)), v. split; [exact Hi|].
        intros j k w Hj. destruct j as [|j].
        -- destruct (Hmax 0%nat k w Hj) as [Hle Hlt].
           split; [exact Hle | intros _; apply Hlt; lia].
        -- destruct j as [|j].
           ++ injection Hj as <- <-.
              destruct (Hmax 0%nat k0 v0 eq_refl) as [Hle Hlt].
              assert (v0 < v) by (apply Hlt; lia).
              split; [lra | intros _; lra].
           ++ destruct (Hmax (S j) k w Hj) as [Hle Hlt].
              split; [exact Hle | intro Hji; apply Hlt; lia].
Qed.

(** X1.  [dominant_ethnicity] never fails and never answers ANY: it is
    the first category, in the order white, black, hispanic, asian, other,
    whose probability is the greatest of the record. *)
Theorem dominant_ethnicity_first_maximum (r : NameRecord) :
  exists e i v,
    dominant_ethnicity r = Some e /\
    is_concrete e = true /\
    nth_error (probabilities r) i = Some (ethnicity_value e, v) /\
    forall j k w,
      nth_error (probabilities r) j = Some (k, w) ->
      w <= v /\ ((j < i)%nat -> w < v).
Proof.
  unfold dominant_ethnicity, probabilities, max_key.
  set (m := max_key_from "white" (prob_white r)
              [("black", prob_black r); ("hispanic", prob_hispanic r);
               ("asian", prob_asian r); ("other", prob_other r)]).
  destruct (max_key_from_spec
              [("black", prob_black r); ("hispanic", prob_hispanic r);
               ("asian", prob_asian r); ("other", prob_other r)]
              "white" (prob_white r)) as (i & v & Hi & Hmax).
  fold m in Hi.
  assert (He : exists e,
             ethnicity_of_value m = Some e /\ is_concrete e = true /\
             ethnicity_value e = m).
  { clearbody m.
    do 5 (destruct i as [|i];
          [injection Hi as <- _; eexists; repeat apply conj; reflexivity|]).
    destruct i; discriminate Hi. }
  destruct He as (e & He & Hc & Hv).
  exists e, i, v. rewrite He, Hv. auto.
Qed.

(** ** The session: connection, queries and draws *)

Lemma keeps_session_ret {A} (a : A) : keeps_session (ret a).
Proof.
  intros env st. unfold run, ret. simpl.
  repeat apply conj; auto. exists []. now rewrite app_nil_r.
Qed.

Lemma keeps_session_raise {A} (e : exn) : keeps_session (@raise A e).
Proof.
  intros env st. unfold run, raise. simpl.
  repeat apply conj; auto. exists []. now rewrite app_nil_r.
Qed.

Lemma keeps_session_bind {A B} (m : M A) (k : A -> M B) :
  keeps_session m -> (forall a, keeps_session (k a)) ->
  keeps_session (bind m k).
Proof.
  intros Hm Hk env st. specialize (Hm env st).
  unfold run, bind in *.
  destruct (m env st) as [[a|x] st1]; simpl in Hm; [|exact Hm].
  destruct Hm as (Hr & Hc & Hd & qs & Hq).
  specialize (Hk a env st1). unfold run in Hk.
  destruct (k a env st1) as [o st2]. simpl in *.
  destruct Hk as (Hr2 & Hc2 & Hd2 & qs2 & Hq2).
  repeat apply conj.
  - congruence.
  - intros db Hdb. apply Hc2, Hc, Hdb.
  - lia.
  - exists (qs ++ qs2)%list. rewrite Hq2, Hq, app_assoc. reflexivity.
Qed.

Lemma keeps_session_choices {A} (population : list A) (weights : list Q) :
  keeps_session (choices population weights).
Proof.
  intros env st.
  destruct (run (choices population weights) env st) as [o st'] eqn:H.
  apply choices_frame in H. destruct H as (Hc & Hq & Ho). simpl.
  repeat apply conj.
  - unfold reachable. now rewrite Hc.
  - intros db Hdb. congruence.
  - destruct o; [lia | subst; lia].
  - exists []. now rewrite app_nil_r.
Qed.

Lemma keeps_session_select (e : option Ethnicity) (d : option Distribution) :
  keeps_session (_select_ethnicity e d).
Proof.
  unfold _select_ethnicity.
  destruct e as [e'|]; [destruct (is_concrete e')|];
    auto using keeps_session_ret, keeps_session_choices.
Qed.

Lemma keeps_session_fetch (table t : string) (g : option Gender) (p : Q) :
  keeps_session (_fetch_names table t g p).
Proof.
  intros env st. rewrite fetch_names_run. unfold reachable.
  destruct st as [c n qs]. simpl.
  destruct c as [db|]; simpl.
  - repeat apply conj; auto. eexists; reflexivity.
  - destruct (disk env) as [db|]; simpl.
    + repeat apply conj; auto; [discriminate | eexists; reflexivity].
    + repeat apply conj; auto. exists []. now rewrite app_nil_r.
Qed.

Lemma keeps_session_weighted_select (names : list NameRecord) (t : string) :
  keeps_session (_weighted_select names t).
Proof.
  unfold _weighted_select. destruct names as [|r names].
  - apply keeps_session_raise.
  - destruct (prob_attr t);
      auto using keeps_session_raise, keeps_session_choices.
Qed.

Lemma keeps_session_first_name (e : option Ethnicity) (g : option Gender)
    (d : option Distribution) (p : Q) :
  keeps_session (generate_first_name e g d p).
Proof.
  unfold generate_first_name.
  apply keeps_session_bind; [apply keeps_session_select | intro t].
  apply keeps_session_bind; [apply keeps_session_fetch | intro names].
  apply keeps_session_bind.
  - destruct (is_empty names && Qlt_bool 0.20 p);
      auto using keeps_session_fetch, keeps_session_ret.
  - intro names'. destruct (is_empty names');
      auto using keeps_session_raise, keeps_session_weighted_select.
Qed.

Lemma keeps_session_last_name (e : option Ethnicity)
    (d : option Distribution) (p : Q) :
  keeps_session (generate_last_name e d p).
Proof.
  unfold generate_last_name.
  apply keeps_session_bind; [apply keeps_session_select | intro t].
  apply keeps_session_bind; [apply keeps_session_fetch | intro names].
  apply keeps_session_bind.
  - destruct (is_empty names && Qlt_bool 0.20 p);
      auto using keeps_session_fetch, keeps_session_ret.
  - intro names'. destruct (is_empty names');
      auto using keeps_session_raise, keeps_session_weighted_select.
Qed.

Lemma keeps_session_ethnicity_call (value : string) :
  keeps_session (Ethnicity_call value).
Proof.
  unfold Ethnicity_call. destruct (ethnicity_of_value value);
    auto using keeps_session_ret, keeps_session_raise.
Qed.

Lemma keeps_session_full_name (e : option Ethnicity) (g : option Gender)
    (d : option Distribution) (p : Q) :
  keeps_session (generate_full_name e g d p).
Proof.
  unfold generate_full_name.
  apply keeps_session_bind; [apply keeps_session_select | intro t].
  apply keeps_session_bind; [apply keeps_session_ethnicity_call | intro e1].
  apply keeps_session_bind; [apply keeps_session_first_name | intro first].
  apply keeps_session_bind; [apply keeps_session_ethnicity_call | intro e2].
  apply keeps_session_bind; [apply keeps_session_last_name | intro last].
  apply keeps_session_ret.
Qed.

Lemma keeps_session_batch_loop (n : nat) (e : option Ethnicity)
    (g : option Gender) (include_surnames : bool) (d : option Distribution) :
  forall results,
    keeps_session (batch_loop n e g include_surnames d results).
Proof.
  induction n as [|n IH]; intro results; cbn [batch_loop].
  - apply keeps_session_ret.
  - apply keeps_session_bind; [|intro entry; apply IH].
    destruct include_surnames.
    + apply keeps_session_bind; [apply keeps_session_full_name | intro names].
      apply keeps_session_ret.
    + apply keeps_session_bind; [apply keeps_session_first_name | intro f].
      apply keeps_session_ret.
Qed.

(** X2.  No request closes or replaces the connection: it leaves an open
    connection open and the same, reaches the same database afterwards as
    before, and only adds to the queries issued and to the draws made;
    whether it succeeds or fails. *)
Theorem requests_keep_session (e : option Ethnicity) (g : option Gender)
    (d : option Distribution) (p : Q) (n : Z) (include_surnames : bool) :
  keeps_session (generate_first_name e g d p) /\
  keeps_session (generate_last_name e d p) /\
  keeps_session (generate_full_name e g d p) /\
  keeps_session (generate_batch n e g include_surnames d).
Proof.
  repeat apply conj.
  - apply keeps_session_first_name.
  - apply keeps_session_last_name.
  - apply keeps_session_full_name.
  - apply keeps_session_batch_loop.
Qed.















(** ** Which rows a request can return *)

Lemma row_matches_qualifies (col : Row -> Q) (table t : string)
    (g : option Gender) (p : Q) (row : Row) :
  row_matches col (fetch_query table t g p) row = true <->
  qualifies col table g p row.
Proof.
  unfold row_matches, qualifies, fetch_query. simpl.
  rewrite andb_true_iff, Qle_bool_iff.
  split; intros [Hp Hg]; (split; [exact Hp|]).
  - intros s Hs. rewrite Hs in Hg.
    destruct (row_gender row) as [s'|]; [|discriminate].
    apply String.eqb_eq in Hg. now subst.
  - destruct (gender_param table g) as [s|]; [|reflexivity].
    rewrite (Hg s eq_refl). apply String.eqb_refl.
Qed.

Lemma qualifies_weaken (col : Row -> Q) (table : string) (g : option Gender)
    (p p' : Q) (row : Row) :
  p' <= p -> qualifies col table g p row -> qualifies col table g p' row.
Proof.
  intros Hle [Hp Hg]. split; [|exact Hg]. now apply Qle_trans with p.
Qed.

Lemma filter_nil_iff {A} (f : A -> bool) (l : list A) :
  filter f l = [] <-> forall x, In x l -> f x = false.
Proof.
  induction l as [|a l IH]; simpl.
  - split; [intros _ x [] | reflexivity].
  - destruct (f a) eqn:Ha; split.
    + discriminate.
    + intro H. specialize (H a (or_introl eq_refl)). congruence.
    + intros H x [<-|Hx]; [exact Ha | now apply IH].
    + intro H. apply IH. intros x Hx. apply H. now right.
Qed.

(** What the two fetches answer on a database that has the table and the
    column: the records of rows that qualify at the lower of the requested
    threshold and 0.20, and none only if no row qualifies there. *)
Lemma fetch_with_fallback_answer (table t : string) (g : option Gender)
    (p : Q) (env : Env) (st : State) (db : Database) (tb : Table)
    (col : Row -> Q) :
  reachable env st = Some db ->
  lookup_table db table = Some tb ->
  prob_column t = Some col ->
  (gender_param table g = None \/ has_gender_column tb = true) ->
  exists names st',
    run (fetch_with_fallback table t g p) env st = (Ok names, st') /\
    reachable env st' = Some db /\ draws st' = draws st /\
    (names = [] <->
     forall row, In row (table_rows tb) ->
                 ~ qualifies col table g (Qmin p 0.20) row) /\
    forall r, In r names ->
      exists row, In row (table_rows tb) /\
                  r = record_of_row (has_gender_column tb) row /\
                  qualifies col table g (Qmin p 0.20) row.
Proof.
  intros Hdb Htb Hcol Hgender.
  assert (Hexec : forall p',
             records_of (sqlite_execute db (fetch_query table t g p')) =
             Ok (map (record_of_row (has_gender_column tb))
                     (filter (row_matches col (fetch_query table t g p'))
                             (table_rows tb)))).
  { intro p'. unfold sqlite_execute. simpl q_table. simpl q_ethnicity.
    simpl q_gender. rewrite Htb, Hcol.
    replace (match gender_param table g with
             | Some _ => negb (has_gender_column tb)
             | None => false
             end) with false; [reflexivity|].
    destruct Hgender as [-> | ->]; [reflexivity|].
    destruct (gender_param table g); reflexivity. }
  assert (Hin : forall p' r,
             In r (map (record_of_row (has_gender_column tb))
                       (filter (row_matches col (fetch_query table t g p'))
                               (table_rows tb))) ->
             exists row, In row (table_rows tb) /\
                         r = record_of_row (has_gender_column tb) row /\
                         qualifies col table g p' row).
  { intros p' r Hr. apply in_map_iff in Hr. destruct Hr as (row & <- & Hrow).
    apply filter_In in Hrow. destruct Hrow as [Hrow Hm].
    exists row. split; [exact Hrow|]. split; [reflexivity|].
    apply (proj1 (row_matches_qualifies col table t g p' row)). exact Hm. }
  assert (Hnil : forall p',
             map (record_of_row (has_gender_column tb))
                 (filter (row_matches col (fetch_query table t g p'))
                         (table_rows tb)) = [] <->
             forall row, In row (table_rows tb) ->
                         ~ qualifies col table g p' row).
  { intro p'. split.
    - intros H row Hrow Hq. apply map_eq_nil in H.
      rewrite filter_nil_iff in H. specialize (H row Hrow).
      apply (proj2 (row_matches_qualifies col table t g p' row)) in Hq.
      congruence.
    - intro H. replace (filter _ _) with (@nil Row); [reflexivity|].
      symmetry. apply filter_nil_iff. intros row Hrow.
      destruct (row_matches col (fetch_query table t g p') row) eqn:Hm;
        [|reflexivity].
      exfalso. apply (H row Hrow).
      apply (proj1 (row_matches_qualifies col table t g p' row)). exact Hm. }
  rewrite fetch_with_fallback_run, Hdb, Hexec.
  set (first := map _ (filter (row_matches col (fetch_query table t g p)) _)).
  destruct (is_empty first && Qlt_bool 0.20 p) eqn:Hretry.
  - apply andb_true_iff in Hretry. destruct Hretry as [Hempty H20].
    apply Qlt_bool_iff in H20.
    assert (Hmin : forall row,
               qualifies col table g (Qmin p 0.20) row <->
               qualifies col table g 0.20 row).
    { intro row. unfold qualifies. rewrite (Q.min_r p 0.20) by lra.
      reflexivity. }
    rewrite Hexec. eexists. eexists. split; [reflexivity|].
    repeat apply conj; try reflexivity.
    + intros H row Hrow Hq. apply Hmin in Hq.
      exact (proj1 (Hnil 0.20) H row Hrow Hq).
    + intro H. apply Hnil. intros row Hrow Hq. apply (H row Hrow).
      now apply Hmin.
    + intros r Hr. destruct (Hin 0.20 r Hr) as (row & H1 & H2 & H3).
      exists row. split; [exact H1|]. split; [exact H2|].
      apply (proj2 (Hmin row)). exact H3.
  - eexists. eexists. split; [reflexivity|].
    repeat apply conj; try reflexivity.
    + intros H row Hrow Hq. apply andb_false_iff in Hretry.
      destruct Hretry as [Hne | H20].
      * rewrite H in Hne. discriminate Hne.
      * apply Qlt_bool_false_iff in H20.
        assert (Hq' : qualifies col table g p row).
        { revert Hq. unfold qualifies. rewrite (Q.min_l p 0.20) by exact H20.
          auto. }
        exact (proj1 (Hnil p) H row Hrow Hq').
    + intro H. apply Hnil. intros row Hrow Hq. apply (H row Hrow).
      apply qualifies_weaken with p; [apply Q.le_min_l | exact Hq].
    + intros r Hr. destruct (Hin p r Hr) as (row & H1 & H2 & H3).
      exists row. split; [exact H1|]. split; [exact H2|].
      apply qualifies_weaken with p; [apply Q.le_min_l | exact H3].
Qed.

(** A successful answer comes from a database that has the table and the
    column, and the gender column when the query names it. *)
Lemma fetch_with_fallback_ok_schema (table t : string) (g : option Gender)
    (p : Q) (env : Env) (st st' : State) (names : list NameRecord) :
  run (fetch_with_fallback table t g p) env st = (Ok names, st') ->
  exists db tb col,
    reachable env st = Some db /\
    lookup_table db table = Some tb /\
    prob_column t = Some col /\
    (gender_param table g = None \/ has_gender_column tb = true).
Proof.
  rewrite fetch_with_fallback_run.
  destruct (reachable env st) as [db|] eqn:Hdb; [|discriminate].
  unfold sqlite_execute at 1. simpl q_table. simpl q_ethnicity.
  simpl q_gender.
  destruct (lookup_table db table) as [tb|] eqn:Htb; [|discriminate].
  destruct (prob_column t) as [col|] eqn:Hcol; [|discriminate].
  destruct (gender_param table g) as [s|] eqn:Hg.
  - destruct (has_gender_column tb) eqn:Hhg; [|discriminate].
    intros _. exists db, tb, col. auto.
  - intros _. exists db, tb, col. auto.
Qed.

(** With a positive total [choices] returns, whatever the source yields. *)
Lemma choices_returns {A} (population : list A) (weights : list Q)
    (env : Env) (st : State) :
  length weights = length population ->
  population <> [] ->
  0 < Qsum weights ->
  exists x,
    run (choices population weights) env st =
      (Ok x, mkState (_conn st) (S (draws st)) (queries st)) /\
    In x population.
Proof.
  intros Hlen Hne Htot.
  assert (Hn : (0 < length population)%nat).
  { destruct population; [congruence | simpl; lia]. }
  pose proof (accumulate_length weights) as Hacc.
  unfold choices, run.
  replace (length (accumulate weights) =? length population)%nat with true
    by (symmetry; apply Nat.eqb_eq; lia).
  cbn [negb].
  destruct (nth_error (accumulate weights) (length (accumulate weights) - 1))
    as [total|] eqn:Htotal.
  2:{ apply nth_error_None in Htotal. lia. }
  assert (Htotal_eq : total == Qsum weights).
  { apply nth_error_nth_default in Htotal. rewrite <- Htotal.
    rewrite accumulate_nth by lia.
    replace (S (length (accumulate weights) - 1)) with (length weights)
      by lia.
    rewrite Qsum_firstn_all. reflexivity. }
  replace (Qle_bool total 0) with false
    by (symmetry; apply Qle_bool_false_iff; rewrite Htotal_eq; exact Htot).
  unfold bind, random.
  set (k := bisect_right _ _ _ _).
  assert (Hk : (k < length population)%nat).
  { subst k. unfold bisect_right.
    pose proof (bisect_loop_bounds (accumulate weights)
                  (rng env (draws st) * total)
                  (length population - 1 - 0) 0 (length population - 1)
                  (Nat.le_0_l _)).
    lia. }
  destruct (nth_error population k) as [x|] eqn:Hx.
  - exists x. split; [reflexivity|]. eapply nth_error_In; eassumption.
  - apply nth_error_None in Hx. lia.
Qed.

Lemma prob_column_record (t : string) (col : Row -> Q) :
  prob_column t = Some col ->
  exists prob, prob_attr t = Some prob /\
               forall b row, prob (record_of_row b row) = col row.
Proof.
  unfold prob_attr, prob_column.
  repeat (destruct (t =? _)%string;
          [intro H; injection H as <-; eexists; split;
           [reflexivity | intros; reflexivity] |]).
  discriminate.
Qed.

(** The end of a request for one name, on a database that has the table
    and the column: it succeeds exactly when a row qualifies at the lower
    of the requested threshold and 0.20. *)
Lemma name_request_outcome (table t : string) (g : option Gender) (p : Q)
    (fail : exn) (env : Env) (st : State) (db : Database) (tb : Table)
    (col : Row -> Q) :
  reachable env st = Some db ->
  lookup_table db table = Some tb ->
  prob_column t = Some col ->
  (gender_param table g = None \/ has_gender_column tb = true) ->
  0 < p ->
  (forall row, In row (table_rows tb) -> (0 <= row_count row)%Z) ->
  let outcome :=
    match run (fetch_with_fallback table t g p) env st with
    | (Raise x, st2) => (Raise x, st2)
    | (Ok names, st2) =>
        if is_empty names then (Raise fail, st2)
        else run (_weighted_select names t) env st2
    end in
  ((exists row, In row (table_rows tb) /\
                qualifies col table g (Qmin p 0.20) row) ->
   exists r row,
     fst outcome = Ok r /\
     In row (table_rows tb) /\
     r = record_of_row (has_gender_column tb) row /\
     qualifies col table g (Qmin p 0.20) row) /\
  ((forall row, In row (table_rows tb) ->
                ~ qualifies col table g (Qmin p 0.20) row) ->
   fst outcome = Raise fail /\ draws (snd outcome) = draws st).
Proof.
  intros Hdb Htb Hcol Hgender Hp Hcount outcome. subst outcome.
  destruct (fetch_with_fallback_answer table t g p env st db tb col
              Hdb Htb Hcol Hgender)
    as (names & st2 & Hrun & _ & Hdraws & Hnil & Hin).
  rewrite Hrun. split.
  - intros (row0 & Hrow0 & Hq0).
    destruct names as [|r0 names'] eqn:Hnames.
    { exfalso. exact (proj1 Hnil eq_refl row0 Hrow0 Hq0). }
    cbn [is_empty]. rewrite <- Hnames in *.
    destruct (prob_column_record t col Hcol) as (prob & Hattr & Hagree).
    assert (Hmin : 0 < Qmin p 0.20).
    { destruct (Q.min_spec p 0.20) as [[_ ->] | [_ ->]]; [exact Hp | reflexivity]. }
    assert (Hdom : forall r, In r names ->
                     0 < prob r /\ (0 <= count r)%Z).
    { intros r Hr. destruct (Hin r Hr) as (row & Hrow & -> & Hq & _).
      rewrite Hagree. split; [lra | exact (Hcount row Hrow)]. }
    assert (Htot : 0 < Qsum (map (selection_weight prob) names)).
    { apply total_weight_pos.
      - intros r Hr. destruct (Hdom r Hr). split; [lra | assumption].
      - exists r0. split; [rewrite Hnames; left; reflexivity|].
        apply Hdom. rewrite Hnames. left. reflexivity. }
    destruct (choices_returns names (map (selection_weight prob) names)
                env st2) as (r & Hr & Hrin);
      [apply length_map | rewrite Hnames; discriminate | exact Htot |].
    destruct (Hin r Hrin) as (row & Hrow & Hrec & Hq).
    exists r, row. split; [|auto].
    unfold _weighted_select. rewrite Hnames in *. rewrite Hattr, Hr.
    reflexivity.
  - intro Hnone. rewrite (proj2 Hnil Hnone). cbn. auto.
Qed.

Lemma name_request_ok_row (table t : string) (g : option Gender) (p : Q)
    (fail : exn) (env : Env) (st st' : State) (r : NameRecord) :
  match run (fetch_with_fallback table t g p) env st with
  | (Raise x, st2) => (Raise x, st2)
  | (Ok names, st2) =>
      if is_empty names then (Raise fail, st2)
      else run (_weighted_select names t) env st2
  end = (Ok r, st') ->
  exists db tb col row,
    reachable env st = Some db /\
    lookup_table db table = Some tb /\
    prob_column t = Some col /\
    (gender_param table g = None \/ has_gender_column tb = true) /\
    In row (table_rows tb) /\
    r = record_of_row (has_gender_column tb) row /\
    qualifies col table g (Qmin p 0.20) row.
Proof.
  destruct (run (fetch_with_fallback table t g p) env st)
    as [[names|x] st2] eqn:Hf; [|discriminate].
  destruct (fetch_with_fallback_ok_schema _ _ _ _ _ _ _ _ Hf)
    as (db & tb & col & Hdb & Htb & Hcol & Hgender).
  destruct (fetch_with_fallback_answer table t g p env st db tb col
              Hdb Htb Hcol Hgender)
    as (names' & st2' & Hrun & _ & _ & _ & Hin).
  rewrite Hf in Hrun. injection Hrun as <- <-.
  destruct (is_empty names); [discriminate|].
  intro Hw. apply weighted_select_frame in Hw.
  destruct Hw as (_ & _ & Hr & _).
  destruct (Hin r Hr) as (row & Hrow & Hrec & Hq).
  exists db, tb, col, row. auto 10.
Qed.

(** X4.  A name that is returned is the record of a row of the table that
    was asked (first_names or surnames); a first name asked with the
    gender MALE or FEMALE comes from a row of that gender and carries it,
    so a row without gender is never returned to such a request. *)
Theorem returned_name_is_a_row (e : option Ethnicity) (g : option Gender)
    (d : option Distribution) (p : Q) (env : Env) (st st' : State)
    (r : NameRecord) :
  (run (generate_first_name e g d p) env st = (Ok r, st') ->
   exists db tb row,
     reachable env st = Some db /\ first_names db = Some tb /\
     In row (table_rows tb) /\
     r = record_of_row (has_gender_column tb) row /\
     forall g', g = Some g' -> g' <> GENDER_ANY ->
                row_gender row = Some (gender_value g') /\
                gender r = Some (gender_value g')) /\
  (run (generate_last_name e d p) env st = (Ok r, st') ->
   exists db tb row,
     reachable env st = Some db /\ surnames db = Some tb /\
     In row (table_rows tb) /\
     r = record_of_row (has_gender_column tb) row).
Proof.
  split.
  - rewrite generate_first_name_run.
    destruct (run (_select_ethnicity e d) env st) as [[t|x] st1] eqn:Hsel;
      [|discriminate].
    intro H. apply name_request_ok_row in H.
    destruct H as (db & tb & col & row & Hdb & Htb & _ & Hgender & Hrow
                   & Hrec & _ & Hg).
    rewrite (reachable_after_select _ _ _ _ _ _ Hsel) in Hdb.
    exists db, tb, row.
    split; [exact Hdb|]. split; [exact Htb|]. split; [exact Hrow|].
    split; [exact Hrec|].
    intros g' -> Hany.
    assert (Hs : gender_param "first_names" (Some (gender_or_any (Some g')))
                 = Some (gender_value g')).
    { apply gender_param_some. exists g'. auto. }
    split; [exact (Hg _ Hs)|].
    destruct Hgender as [Hnone | Hcolumn]; [congruence|].
    rewrite Hrec, Hcolumn. unfold record_of_row. cbn [gender].
    rewrite (Hg _ Hs). destruct g'; reflexivity.
  - rewrite generate_last_name_run.
    destruct (run (_select_ethnicity e d) env st) as [[t|x] st1] eqn:Hsel;
      [|discriminate].
    intro H. apply name_request_ok_row in H.
    destruct H as (db & tb & col & row & Hdb & Htb & _ & _ & Hrow & Hrec & _).
    rewrite (reachable_after_select _ _ _ _ _ _ Hsel) in Hdb.
    exists db, tb, row. auto.
Qed.

Lemma returned_name_is_a_row_witness :
  exists db tb row,
    reachable (sample_env (fun _ => 0)) initial_state = Some db /\
    first_names db = Some tb /\
    In row (table_rows tb) /\
    mkNameRecord "Maria" (Some "F") 10000 0.10 0.05 0.75 0.08 0.02 =
      record_of_row (has_gender_column tb) row /\
    forall g', Some FEMALE = Some g' -> g' <> GENDER_ANY ->
               row_gender row = Some (gender_value g') /\
               gender (mkNameRecord "Maria" (Some "F") 10000
                                    0.10 0.05 0.75 0.08 0.02) =
                 Some (gender_value g').
Proof.
  destruct (returned_name_is_a_row (Some HISPANIC) (Some FEMALE) None 0.40
              (sample_env (fun _ => 0)) initial_state
              (mkState (Some sample_db) 1
                 [fetch_query "first_names" "hispanic" (Some FEMALE) 0.40])
              (mkNameRecord "Maria" (Some "F") 10000
                            0.10 0.05 0.75 0.08 0.02)) as [H _].
  apply H. reflexivity.
Defined.

(** X5.  On a database that has the table, for a resolved category and a
    positive threshold [p] (counts not negative): a request for one name
    returns a name exactly when a row qualifies at the lower of [p] and
    0.20 (for a first name: a row of the gender asked for); when no row
    does, it fails with the no-candidates error. *)
Theorem name_request_succeeds_iff_row_qualifies (e : option Ethnicity)
    (g : option Gender) (d : option Distribution) (p : Q)
    (env : Env) (st st1 : State) (t : string) (db : Database)
    (col : Row -> Q) :
  run (_select_ethnicity e d) env st = (Ok t, st1) ->
  reachable env st = Some db ->
  prob_column t = Some col ->
  0 < p ->
  (forall tb,
      first_names db = Some tb ->
      has_gender_column tb = true ->
      (forall row, In row (table_rows tb) -> (0 <= row_count row)%Z) ->
      let ok := qualifies col "first_names" (Some (gender_or_any g))
                          (Qmin p 0.20) in
      ((exists row, In row (table_rows tb) /\ ok row) ->
       exists r row,
         fst (run (generate_first_name e g d p) env st) = Ok r /\
         In row (table_rows tb) /\ r = record_of_row true row /\ ok row) /\
      ((forall row, In row (table_rows tb) -> ~ ok row) ->
       fst (run (generate_first_name e g d p) env st) =
         Raise (no_first_names_error t (gender_or_any g)))) /\
  (forall tb,
      surnames db = Some tb ->
      (forall row, In row (table_rows tb) -> (0 <= row_count row)%Z) ->
      let ok := qualifies col "surnames" None (Qmin p 0.20) in
      ((exists row, In row (table_rows tb) /\ ok row) ->
       exists r row,
         fst (run (generate_last_name e d p) env st) = Ok r /\
         In row (table_rows tb) /\
         r = record_of_row (has_gender_column tb) row /\ ok row) /\
      ((forall row, In row (table_rows tb) -> ~ ok row) ->
       fst (run (generate_last_name e d p) env st) =
         Raise (no_surnames_error t))).
Proof.
  intros Hsel Hdb Hcol Hp.
  rewrite <- (reachable_after_select _ _ _ _ _ _ Hsel) in Hdb.
  split.
  - intros tb Htb Hcolumn Hcount ok.
    destruct (name_request_outcome "first_names" t
                (Some (gender_or_any g)) p
                (no_first_names_error t (gender_or_any g))
                env st1 db tb col Hdb Htb Hcol (or_intror Hcolumn) Hp Hcount)
      as [Hyes Hno].
    rewrite generate_first_name_run, Hsel. rewrite Hcolumn in Hyes.
    split; [exact Hyes | intro H; exact (proj1 (Hno H))].
  - intros tb Htb Hcount ok.
    destruct (name_request_outcome "surnames" t None p
                (no_surnames_error t)
                env st1 db tb col Hdb Htb Hcol (or_introl eq_refl) Hp Hcount)
      as [Hyes Hno].
    rewrite generate_last_name_run, Hsel.
    split; [exact Hyes | intro H; exact (proj1 (Hno H))].
Qed.

(** ** Requests that do not fall back *)

Lemma fetch_without_fallback (table t : string) (g : option Gender) (p : Q)
    (env : Env) (st1 st2 : State) (names : list NameRecord) :
  run (_fetch_names table t g p) env st1 = (Ok names, st2) ->
  names <> [] \/ p <= 0.20 ->
  run (fetch_with_fallback table t g p) env st1 = (Ok names, st2) /\
  queries st2 = (queries st1 ++ [fetch_query table t g p])%list.
Proof.
  intros H1 Hcase. pose proof H1 as H1'.
  apply fetch_names_ok_records in H1'. destruct H1' as (db & _ & _ & Hst2).
  split; [|rewrite Hst2; reflexivity].
  unfold fetch_with_fallback, run, bind. unfold run in H1. rewrite H1.
  replace (is_empty names && Qlt_bool 0.20 p) with false; [reflexivity|].
  symmetry. apply andb_false_iff.
  destruct Hcase as [Hne | Hp].
  - left. destruct names; [congruence | reflexivity].
  - right. apply Qlt_bool_false_iff. exact Hp.
Qed.

(** X6.  The threshold is lowered only after an empty answer and only
    from above 0.20: when the first fetch answers with candidates, or
    when the requested threshold is 0.20 or less, the request issues that
    one query and no other; an empty answer then fails at once with the
    no-candidates error, and candidates go to the sampler. *)
Theorem single_fetch_without_fallback (e : option Ethnicity)
    (g : option Gender) (d : option Distribution) (p : Q)
    (env : Env) (st st1 : State) (t : string) :
  run (_select_ethnicity e d) env st = (Ok t, st1) ->
  (forall names st2,
      run (_fetch_names "first_names" t (Some (gender_or_any g)) p) env st1 =
        (Ok names, st2) ->
      names <> [] \/ p <= 0.20 ->
      queries (snd (run (generate_first_name e g d p) env st)) =
        (queries st ++
         [fetch_query "first_names" t (Some (gender_or_any g)) p])%list /\
      (names = [] ->
       run (generate_first_name e g d p) env st =
         (Raise (no_first_names_error t (gender_or_any g)), st2)) /\
      (names <> [] ->
       run (generate_first_name e g d p) env st =
         run (_weighted_select names t) env st2)) /\
  (forall names st2,
      run (_fetch_names "surnames" t None p) env st1 = (Ok names, st2) ->
      names <> [] \/ p <= 0.20 ->
      queries (snd (run (generate_last_name e d p) env st)) =
        (queries st ++ [fetch_query "surnames" t None p])%list /\
      (names = [] ->
       run (generate_last_name e d p) env st =
         (Raise (no_surnames_error t), st2)) /\
      (names <> [] ->
       run (generate_last_name e d p) env st =
         run (_weighted_select names t) env st2)).
Proof.
  intro Hsel.
  pose proof (select_ethnicity_frame _ _ _ _ _ _ Hsel) as (_ & Hq & _).
  split; intros names st2 H1 Hcase;
    destruct (fetch_without_fallback _ _ _ _ _ _ _ _ H1 Hcase) as [Hfb Hqs].
  - rewrite generate_first_name_run, Hsel, Hfb.
    destruct names as [|r names]; simpl is_empty; cbv iota.
    + repeat apply conj; [simpl; congruence | reflexivity | congruence].
    + repeat apply conj; [| discriminate | reflexivity].
      destruct (run (_weighted_select (r :: names) t) env st2)
        as [o st3] eqn:Hw.
      apply weighted_select_frame in Hw. simpl.
      destruct Hw as (_ & Hq3 & _). congruence.
  - rewrite generate_last_name_run, Hsel, Hfb.
    destruct names as [|r names]; simpl is_empty; cbv iota.
    + repeat apply conj; [simpl; congruence | reflexivity | congruence].
    + repeat apply conj; [| discriminate | reflexivity].
      destruct (run (_weighted_select (r :: names) t) env st2)
        as [o st3] eqn:Hw.
      apply weighted_select_frame in Hw. simpl.
      destruct Hw as (_ & Hq3 & _). congruence.
Qed.

(** ** The resolver *)






(** ** The queries of a request *)

Lemma queries_within_silent {A} (P : Query -> Prop) (m : M A) :
  (forall env st, queries (snd (run m env st)) = queries st) ->
  queries_within P m.
Proof.
  intros H env st. exists []. rewrite app_nil_r. split; [apply H | constructor].
Qed.

Lemma queries_within_ret {A} (P : Query -> Prop) (a : A) :
  queries_within P (ret a).
Proof. apply queries_within_silent. reflexivity. Qed.

Lemma queries_within_raise {A} (P : Query -> Prop) (e : exn) :
  queries_within P (@raise A e).
Proof. apply queries_within_silent. reflexivity. Qed.

Lemma queries_within_bind {A B} (P : Query -> Prop) (m : M A)
    (k : A -> M B) :
  queries_within P m -> (forall a, queries_within P (k a)) ->
  queries_within P (bind m k).
Proof.
  intros Hm Hk env st. destruct (Hm env st) as (qs & Hq & Hall).
  unfold run, bind in *.
  destruct (m env st) as [[a|x] st1]; simpl in Hq.
  - destruct (Hk a env st1) as (qs2 & Hq2 & Hall2). unfold run in Hq2.
    exists (qs ++ qs2)%list. split.
    + rewrite Hq2, Hq, app_assoc. reflexivity.
    + apply Forall_app. auto.
  - exists qs. auto.
Qed.

Lemma queries_within_weaken {A} (P P' : Query -> Prop) (m : M A) :
  (forall q, P q -> P' q) -> queries_within P m -> queries_within P' m.
Proof.
  intros HP Hm env st. destruct (Hm env st) as (qs & Hq & Hall).
  exists qs. split; [exact Hq|]. eapply Forall_impl; [|exact Hall]. exact HP.
Qed.

Lemma queries_within_select (P : Query -> Prop) (e : option Ethnicity)
    (d : option Distribution) :
  queries_within P (_select_ethnicity e d).
Proof.
  apply queries_within_silent. intros env st.
  destruct (run (_select_ethnicity e d) env st) as [o st'] eqn:H.
  apply select_ethnicity_frame in H. simpl. apply H.
Qed.

Lemma queries_within_weighted_select (P : Query -> Prop)
    (names : list NameRecord) (t : string) :
  queries_within P (_weighted_select names t).
Proof.
  apply queries_within_silent. intros env st.
  destruct (run (_weighted_select names t) env st) as [o st'] eqn:H.
  apply weighted_select_frame in H. simpl. apply H.
Qed.

Lemma queries_within_fetch (P : Query -> Prop) (table t : string)
    (g : option Gender) (p : Q) :
  P (fetch_query table t g p) ->
  queries_within P (_fetch_names table t g p).
Proof.
  intros HP env st. rewrite fetch_names_run.
  destruct (reachable env st) as [db|]; simpl.
  - exists [fetch_query table t g p]. split; [reflexivity|].
    constructor; [exact HP | constructor].
  - exists []. rewrite app_nil_r. split; [reflexivity | constructor].
Qed.

Lemma queries_within_first_name (e : option Ethnicity) (g : option Gender)
    (d : option Distribution) (p : Q) :
  queries_within (first_name_query g p) (generate_first_name e g d p).
Proof.
  unfold generate_first_name.
  apply queries_within_bind; [apply queries_within_select | intro t].
  apply queries_within_bind.
  { apply queries_within_fetch. unfold first_name_query. simpl. auto. }
  intro names. apply queries_within_bind.
  - destruct (is_empty names && Qlt_bool 0.20 p).
    + apply queries_within_fetch. unfold first_name_query. simpl. auto.
    + apply queries_within_ret.
  - intro names'. destruct (is_empty names');
      auto using queries_within_raise, queries_within_weighted_select.
Qed.

Lemma queries_within_last_name (e : option Ethnicity)
    (d : option Distribution) (p : Q) :
  queries_within (surname_query p) (generate_last_name e d p).
Proof.
  unfold generate_last_name.
  apply queries_within_bind; [apply queries_within_select | intro t].
  apply queries_within_bind.
  { apply queries_within_fetch. unfold surname_query. simpl. auto. }
  intro names. apply queries_within_bind.
  - destruct (is_empty names && Qlt_bool 0.20 p).
    + apply queries_within_fetch. unfold surname_query. simpl. auto.
    + apply queries_within_ret.
  - intro names'. destruct (is_empty names');
      auto using queries_within_raise, queries_within_weighted_select.
Qed.

Lemma queries_within_ethnicity_call (P : Query -> Prop) (value : string) :
  queries_within P (Ethnicity_call value).
Proof.
  unfold Ethnicity_call. destruct (ethnicity_of_value value);
    auto using queries_within_ret, queries_within_raise.
Qed.

Lemma queries_within_full_name (e : option Ethnicity) (g : option Gender)
    (d : option Distribution) (p : Q) :
  queries_within (fun q => first_name_query g p q \/ surname_query p q)
                 (generate_full_name e g d p).
Proof.
  unfold generate_full_name.
  apply queries_within_bind; [apply queries_within_select | intro t].
  apply queries_within_bind; [apply queries_within_ethnicity_call | intro e1].
  apply queries_within_bind.
  { eapply queries_within_weaken; [|apply queries_within_first_name]. auto. }
  intro first.
  apply queries_within_bind; [apply queries_within_ethnicity_call | intro e2].
  apply queries_within_bind.
  { eapply queries_within_weaken; [|apply queries_within_last_name]. auto. }
  intro last. apply queries_within_ret.
Qed.

Lemma queries_within_batch_loop (n : nat) (e : option Ethnicity)
    (g : option Gender) (include_surnames : bool) (d : option Distribution) :
  forall results,
    queries_within
      (fun q => first_name_query g 0.40 q \/
                (include_surnames = true /\ surname_query 0.40 q))
      (batch_loop n e g include_surnames d results).
Proof.
  induction n as [|n IH]; intro results; cbn [batch_loop].
  - apply queries_within_ret.
  - apply queries_within_bind; [|intro entry; apply IH].
    destruct include_surnames.
    + apply queries_within_bind; [|intro; apply queries_within_ret].
      eapply queries_within_weaken; [|apply queries_within_full_name].
      intros q [H|H]; auto.
    + apply queries_within_bind; [|intro; apply queries_within_ret].
      eapply queries_within_weaken; [|apply queries_within_first_name].
      auto.
Qed.

(** X9.  The queries a request can issue.  A first-name request only
    queries first_names, with the gender of the request (none for ANY),
    at the requested threshold or at 0.20; a surname request only queries
    surnames, never with a gender, at the requested threshold or at 0.20;
    a full-name request issues queries of these two kinds.  A batch has no
    threshold of its own: all its queries are at 0.40 or 0.20, and it
    queries surnames only when surnames are included. *)
Theorem request_queries (e : option Ethnicity) (g : option Gender)
    (d : option Distribution) (p : Q) (n : Z) (include_surnames : bool) :
  queries_within (first_name_query g p) (generate_first_name e g d p) /\
  queries_within (surname_query p) (generate_last_name e d p) /\
  queries_within (fun q => first_name_query g p q \/ surname_query p q)
                 (generate_full_name e g d p) /\
  queries_within
    (fun q => first_name_query g 0.40 q \/
              (include_surnames = true /\ surname_query 0.40 q))
    (generate_batch n e g include_surnames d).
Proof.
  repeat apply conj.
  - apply queries_within_first_name.
  - apply queries_within_last_name.
  - apply queries_within_full_name.
  - apply queries_within_batch_loop.
Qed.





(** ** Batches: composition and entries *)

Lemma batch_loop_from (n : nat) (e : option Ethnicity) (g : option Gender)
    (include_surnames : bool) (d : option Distribution) :
  forall (acc : list Dict) (env : Env) (st : State),
    run (batch_loop n e g include_surnames d acc) env st =
    match run (batch_loop n e g include_surnames d []) env st with
    | (Ok results, st') => (Ok (acc ++ results)%list, st')
    | (Raise x, st') => (Raise x, st')
    end.
Proof.
  induction n as [|n IH]; intros acc env st.
  - cbn [batch_loop]. unfold run, ret. now rewrite app_nil_r.
  - cbn [batch_loop]. unfold run, bind.
    match goal with
    | |- context [?m env st] => destruct (m env st) as [[entry|x] st1]
    end; [|reflexivity].
    fold (run (batch_loop n e g include_surnames d (acc ++ [entry])) env st1).
    fold (run (batch_loop n e g include_surnames d ([] ++ [entry])) env st1).
    rewrite (IH (acc ++ [entry])%list), (IH ([] ++ [entry])%list).
    destruct (run (batch_loop n e g include_surnames d []) env st1)
      as [[results|x] st2]; [|reflexivity].
    simpl. now rewrite <- app_assoc.
Qed.

Lemma batch_loop_add (n m : nat) (e : option Ethnicity) (g : option Gender)
    (include_surnames : bool) (d : option Distribution) :
  forall (acc : list Dict) (env : Env) (st : State),
    run (batch_loop (n + m) e g include_surnames d acc) env st =
    match run (batch_loop n e g include_surnames d acc) env st with
    | (Ok results, st') =>
        run (batch_loop m e g include_surnames d results) env st'
    | (Raise x, st') => (Raise x, st')
    end.
Proof.
  induction n as [|n IH]; intros acc env st.
  - reflexivity.
  - cbn [Nat.add batch_loop]. unfold run at 1 2, bind.
    match goal with
    | |- context [?m env st] => destruct (m env st) as [[entry|x] st1]
    end; [|reflexivity].
    apply IH.
Qed.

(** X11.  Batches compose: a batch of [a + b] names is a batch of [a]
    names followed, from the state it leaves, by a batch of [b] names, the
    two lists put end to end; it fails as soon as one of them fails and
    then returns no list at all.  A batch of no name, or of a negative
    count, is the empty list and touches nothing, not even a missing
    database. *)
Theorem generate_batch_composes (a b : Z) (e : option Ethnicity)
    (g : option Gender) (include_surnames : bool) (d : option Distribution)
    (env : Env) (st : State) :
  ((0 <= a)%Z -> (0 <= b)%Z ->
   run (generate_batch (a + b) e g include_surnames d) env st =
   match run (generate_batch a e g include_surnames d) env st with
   | (Ok first_part, st1) =>
       match run (generate_batch b e g include_surnames d) env st1 with
       | (Ok second_part, st2) => (Ok (first_part ++ second_part)%list, st2)
       | (Raise x, st2) => (Raise x, st2)
       end
   | (Raise x, st1) => (Raise x, st1)
   end) /\
  ((a <= 0)%Z ->
   run (generate_batch a e g include_surnames d) env st = (Ok [], st)).
Proof.
  split.
  - intros Ha Hb. unfold generate_batch.
    rewrite Z2Nat.inj_add by assumption.
    rewrite batch_loop_add.
    destruct (run (batch_loop (Z.to_nat a) e g include_surnames d []) env st)
      as [[r1|x] st1]; [|reflexivity].
    apply batch_loop_from.
  - intro Ha. unfold generate_batch.
    replace (Z.to_nat a) with 0%nat by lia. reflexivity.
Qed.

Lemma generate_batch_composes_witness :
  run (generate_batch (1 + 2) None None true None)
      (sample_env (fun _ => 0.5)) initial_state =
  match run (generate_batch 1 None None true None)
            (sample_env (fun _ => 0.5)) initial_state with
  | (Ok first_part, st1) =>
      match run (generate_batch 2 None None true None)
                (sample_env (fun _ => 0.5)) st1 with
      | (Ok second_part, st2) => (Ok (first_part ++ second_part)%list, st2)
      | (Raise x, st2) => (Raise x, st2)
      end
  | (Raise x, st1) => (Raise x, st1)
  end /\
  run (generate_batch (-3) None None true None)
      (mkEnv "data/names.db" None (fun _ => 0.5)) initial_state =
    (Ok [], initial_state).
Proof.
  split.
  - destruct (generate_batch_composes 1 2 None None true None
                (sample_env (fun _ => 0.5)) initial_state) as [H _].
    apply H; discriminate.
  - destruct (generate_batch_composes (-3) 0 None None true None
                (mkEnv "data/names.db" None (fun _ => 0.5)) initial_state)
      as [_ H].
    apply H. discriminate.
Defined.

Lemma batch_loop_entries (n : nat) (e : option Ethnicity) (g : option Gender)
    (include_surnames : bool) (d : option Distribution) :
  forall (acc results : list Dict) (env : Env) (st st' : State),
    run (batch_loop n e g include_surnames d acc) env st = (Ok results, st') ->
    exists new,
      results = (acc ++ new)%list /\ length new = n /\
      Forall (fun entry =>
                if include_surnames
                then exists first last, entry = full_name_entry first last
                else exists first, entry = first_name_entry first) new.
Proof.
  induction n as [|n IH]; intros acc results env st st'.
  - cbn [batch_loop]. unfold run, ret. intro H. injection H as <- _.
    exists []. rewrite app_nil_r. auto.
  - cbn [batch_loop]. unfold run at 1, bind at 1.
    match goal with
    | |- context [?m env st] =>
        destruct (m env st) as [[entry|x] st1] eqn:Hentry
    end; [|discriminate].
    intro H. apply IH in H. destruct H as (new & -> & Hlen & Hall).
    exists (entry :: new). rewrite <- app_assoc. simpl.
    repeat apply conj; auto.
    constructor; [|exact Hall].
    destruct include_surnames; unfold bind in Hentry.
    + destruct (generate_full_name e g d default_min_probability env st)
        as [[names|y] st2]; [|discriminate].
      unfold ret in Hentry. injection Hentry as <- _.
      exists (fst names), (snd names). reflexivity.
    + destruct (generate_first_name e g d default_min_probability env st)
        as [[first|y] st2]; [|discriminate].
      unfold ret in Hentry. injection Hentry as <- _.
      exists first. reflexivity.
Qed.

(** X12.  The entries of a successful batch.  With surnames an entry has
    the keys first_name, last_name, full_name, gender and
    ethnicity_probabilities, in this order, and its full_name is its
    first_name, a space and its last_name; without surnames it has
    first_name, gender and ethnicity_probabilities only: neither last_name
    nor full_name. *)
Theorem generate_batch_entry_fields (n : Z) (e : option Ethnicity)
    (g : option Gender) (include_surnames : bool) (d : option Distribution)
    (env : Env) (st st' : State) (results : list Dict) :
  run (generate_batch n e g include_surnames d) env st = (Ok results, st') ->
  Forall
    (fun entry =>
       if include_surnames then
         map fst entry =
           ["first_name"; "last_name"; "full_name"; "gender";
            "ethnicity_probabilities"] /\
         exists first last,
           dict_lookup entry "first_name" = Some (VStr first) /\
           dict_lookup entry "last_name" = Some (VStr last) /\
           dict_lookup entry "full_name" = Some (VStr (first ++ " " ++ last))
       else
         map fst entry = ["first_name"; "gender"; "ethnicity_probabilities"] /\
         (exists first, dict_lookup entry "first_name" = Some (VStr first)) /\
         dict_lookup entry "last_name" = None /\
         dict_lookup entry "full_name" = None)
    results.
Proof.
  intro H. unfold generate_batch in H. apply batch_loop_entries in H.
  destruct H as (new & -> & _ & Hall). simpl.
  eapply Forall_impl; [|exact Hall]. intros entry Hentry.
  destruct include_surnames.
  - destruct Hentry as (first & last & ->).
    split; [reflexivity|]. exists (name first), (name last).
    repeat apply conj; reflexivity.
  - destruct Hentry as (first & ->).
    split; [reflexivity|]. split; [exists (name first); reflexivity|].
    split; reflexivity.
Qed.

Lemma generate_batch_entry_fields_witness :
  exists results,
    fst (run (generate_batch 1 (Some ASIAN) None false None)
             (sample_env (fun _ => 0.5)) initial_state) = Ok results /\
    Forall
      (fun entry =>
         map fst entry = ["first_name"; "gender"; "ethnicity_probabilities"] /\
         (exists first, dict_lookup entry "first_name" = Some (VStr first)) /\
         dict_lookup entry "last_name" = None /\
         dict_lookup entry "full_name" = None)
      results.
Proof.
  destruct (run (generate_batch 1 (Some ASIAN) None false None)
                (sample_env (fun _ => 0.5)) initial_state)
    as [[results|x] st'] eqn:H; pose proof H as H'; vm_compute in H';
    [|discriminate H'].
  exists results. split; [reflexivity|].
  exact (generate_batch_entry_fields _ _ _ false _ _ _ _ _ H).
Defined.

(** ** Rounding *)





(** ** The command line *)

Lemma for_each_done {A B} (f : A -> Result B) (l : list A) :
  Forall (fun a => exists b, f a = Done b) l ->
  exists bs, for_each f l = Done bs /\ Forall2 (fun a b => f a = Done b) l bs.
Proof.
  induction 1 as [|a l (b & Hb) _ (bs & Hbs & Hall)].
  - exists []. split; [reflexivity | constructor].
  - exists (b :: bs). cbn [for_each]. rewrite Hb, Hbs. split; [reflexivity|].
    constructor; assumption.
Qed.


Lemma with_generator_run {A} (body : M A) (env : Env) (st : State) :
  run (with_generator body) env st =
    (fst (run body env (mkState None (draws st) (queries st))),
     mkState None
       (draws (snd (run body env (mkState None (draws st) (queries st)))))
       (queries (snd (run body env (mkState None (draws st) (queries st)))))).
Proof.
  unfold run, with_generator, new_generator, close.
  destruct (body env (mkState None (draws st) (queries st))) as [o st1].
  reflexivity.
Qed.

(** With the default distribution the resolver always returns, and
    returns a concrete category. *)
Lemma select_default_returns (e : Ethnicity) (env : Env) (st : State) :
  exists t st1,
    run (_select_ethnicity (Some e) None) env st = (Ok t, st1) /\
    concrete_category t = true /\
    _conn st1 = _conn st /\ queries st1 = queries st.
Proof.
  destruct (is_concrete e) eqn:Hc.
  - exists (ethnicity_value e), st.
    rewrite select_ethnicity_concrete by exact Hc.
    split; [reflexivity|]. split; [|split; reflexivity].
    unfold concrete_category. rewrite ethnicity_of_value_complete. exact Hc.
  - unfold _select_ethnicity. rewrite Hc.
    destruct (choices_returns
                (map fst (distribution_in_force None))
                (map snd (distribution_in_force None)) env st)
      as (x & Hx & Hin); [reflexivity | discriminate | reflexivity |].
    exists x, (mkState (_conn st) (S (draws st)) (queries st)).
    split; [exact Hx|]. split; [|split; reflexivity].
    simpl in Hin.
    destruct Hin as [<-|[<-|[<-|[<-|[<-|[]]]]]]; reflexivity.
Qed.

(** A batch of one name or more on a generator that reaches no database. *)
Lemma batch_loop_unreachable (n : nat) (e : Ethnicity) (g : option Gender)
    (include_surnames : bool) (acc : list Dict) (env : Env) (st : State) :
  reachable env st = None ->
  exists st1,
    run (batch_loop (S n) (Some e) g include_surnames None acc) env st =
      (Raise (database_not_found env), st1) /\
    _conn st1 = _conn st /\ queries st1 = queries st.
Proof.
  intro Hdb.
  destruct (select_default_returns e env st)
    as (t & st1 & Hsel & Hct & Hc & Hq).
  assert (Hdb1 : reachable env st1 = None).
  { rewrite (reachable_after_select _ _ _ _ _ _ Hsel). exact Hdb. }
  exists st1. split; [|split; assumption].
  cbn [batch_loop]. unfold run, bind. destruct include_surnames.
  - pose proof (generate_full_name_unreachable (Some e) g None
                  default_min_probability env st st1 t Hdb1 Hsel Hct) as H.
    unfold run in H. rewrite H. reflexivity.
  - destruct (generate_names_unreachable (Some e) g None
                default_min_probability env st st1 t Hdb1 Hsel) as [H _].
    unfold run in H. rewrite H. reflexivity.
Qed.

Section CommandLine.

Variable json_dumps : list Dict -> string.
Variable float_str : Q -> string.
Variable dict_str : list (string * Q) -> string.


(** [main] in terms of the run of its batch on a new generator. *)
Lemma main_run (args : Args) (env : Env) (st : State) (ethnicity : Ethnicity) :
  args_setup args = false ->
  ethnicity_of_arg (args_ethnicity args) = Some ethnicity ->
  forall env' r,
    env' = match db_path_of_arg (args_db_path args) with
           | None => env
           | Some _ => mkEnv (db_path env) None (rng env)
           end ->
    r = run (generate_batch (args_count args) (Some ethnicity)
               (Some (gender_of_arg (args_gender args)))
               (negb (args_first_only args)) None)
            env' (mkState None (draws st) (queries st)) ->
    main json_dumps float_str dict_str args env st =
      (match fst r with
       | Ok names =>
           match format_output json_dumps float_str dict_str names (args_format args) (args_first_only args) with
           | Done output => Printed output
           | Failed e => ErrorExit e false
           end
       | Raise e =>
           match db_path_of_arg (args_db_path args), e with
           | Some _, FileNotFoundError _ =>
               ErrorExit
                 (GeneratorError
                    (AttributeError "'str' object has no attribute 'exists'"))
                 false
           | _, _ => ErrorExit (GeneratorError e) (is_file_not_found e)
           end
       end,
       mkState None (draws (snd r)) (queries (snd r))).
Proof.
  intros Hsetup Heth env' r -> ->. unfold main. rewrite Hsetup, Heth.
  destruct (db_path_of_arg (args_db_path args)) as [s|];
    rewrite with_generator_run; unfold on_str_path, run, bind, ret;
    match goal with
    | |- context [generate_batch ?n ?e ?g ?i ?d ?env0 ?st0] =>
        destruct (generate_batch n e g i d env0 st0) as [[names|x] st1]
    end; cbn [fst snd].
  - destruct (format_output json_dumps float_str dict_str names (args_format args) (args_first_only args));
      reflexivity.
  - destruct x; reflexivity.
  - destruct (format_output json_dumps float_str dict_str names (args_format args) (args_first_only args));
      reflexivity.
  - destruct x; reflexivity.
Qed.


(** X15.  The option --min-probability has no effect: [main] does the
    same whatever its value, and all its queries are at the threshold 0.40
    or 0.20.  They are queries on first_names with the gender of the
    command line (none for any), and, unless --first-only is given,
    queries on surnames without a gender. *)
Theorem main_ignores_min_probability (count : Z) (ethnicity gender : string)
    (first_only : bool) (output_format : string) (p p' : Q) (setup : bool)
    (path : option string) (env : Env) (st : State) :
  main json_dumps float_str dict_str
       (mkArgs count ethnicity gender first_only output_format p setup path)
       env st =
  main json_dumps float_str dict_str
       (mkArgs count ethnicity gender first_only output_format p' setup path)
       env st /\
  exists qs,
    queries (snd (main json_dumps float_str dict_str
                    (mkArgs count ethnicity gender first_only output_format
                            p setup path) env st)) =
      (queries st ++ qs)%list /\
    Forall (fun q =>
              first_name_query (Some (gender_of_arg gender)) 0.40 q \/
              (first_only = false /\ surname_query 0.40 q)) qs.
Proof.
  split; [reflexivity|].
  destruct setup eqn:Hsetup.
  { exists []. rewrite app_nil_r. split; [reflexivity | constructor]. }
  destruct (ethnicity_of_arg ethnicity) as [e|] eqn:Heth.
  2:{ exists []. unfold main. cbn [args_setup args_ethnicity].
      rewrite Heth, app_nil_r. split; [reflexivity | constructor]. }
  rewrite (main_run
             (mkArgs count ethnicity gender first_only output_format p false
                     path) env st e eq_refl Heth _ _ eq_refl eq_refl).
  cbn [snd queries args_count args_gender args_first_only args_db_path].
  match goal with
  | |- context [run (generate_batch ?n ?e0 ?g ?i ?d) ?env0 ?st0] =>
      destruct (queries_within_batch_loop (Z.to_nat n) e0 g i d [] env0 st0)
        as (qs & Hqs & Hall)
  end.
  exists qs. split; [exact Hqs|].
  eapply Forall_impl; [|exact Hall]. intros q [H|[Hinc H]]; [left; exact H|].
  right. split; [|exact H]. destruct first_only; [discriminate | reflexivity].
Qed.

(** X16.  The option --db-path never works: the generator is given the
    str of the command line where it expects a [Path], so that for a
    non-empty path and a count of one or more [main] ends with the
    AttributeError of [str.exists], without the setup hint and without a
    single query, whether the file exists or not. *)
Theorem main_db_path_attribute_error (args : Args) (env : Env) (st : State)
    (ethnicity : Ethnicity) (path : string) :
  args_setup args = false ->
  ethnicity_of_arg (args_ethnicity args) = Some ethnicity ->
  db_path_of_arg (args_db_path args) = Some path ->
  (0 < args_count args)%Z ->
  fst (main json_dumps float_str dict_str args env st) =
    ErrorExit
      (GeneratorError
         (AttributeError "'str' object has no attribute 'exists'")) false /\
  queries (snd (main json_dumps float_str dict_str args env st)) =
    queries st.
Proof.
  intros Hsetup Heth Hpath Hcount.
  rewrite (main_run args env st ethnicity Hsetup Heth _ _ eq_refl eq_refl).
  rewrite Hpath. cbn [fst snd queries]. unfold generate_batch.
  destruct (Z.to_nat (args_count args)) as [|n] eqn:Hn; [lia|].
  destruct (batch_loop_unreachable n ethnicity
              (Some (gender_of_arg (args_gender args)))
              (negb (args_first_only args)) []
              (mkEnv (db_path env) None (rng env))
              (mkState None (draws st) (queries st)) eq_refl)
    as (st1 & Hrun & _ & Hq).
  rewrite Hrun. cbn [fst snd]. split; [reflexivity | exact Hq].
Qed.

(** X17.  Without --db-path, when the file of the default database does
    not exist and one name or more is asked for, [main] ends with the
    FileNotFoundError of the generator and the hint to run the setup,
    without a query. *)
Theorem main_missing_database (args : Args) (env : Env) (st : State)
    (ethnicity : Ethnicity) :
  args_setup args = false ->
  ethnicity_of_arg (args_ethnicity args) = Some ethnicity ->
  db_path_of_arg (args_db_path args) = None ->
  disk env = None ->
  (0 < args_count args)%Z ->
  fst (main json_dumps float_str dict_str args env st) =
    ErrorExit (GeneratorError (database_not_found env)) true /\
  queries (snd (main json_dumps float_str dict_str args env st)) =
    queries st.
Proof.
  intros Hsetup Heth Hpath Hdisk Hcount.
  rewrite (main_run args env st ethnicity Hsetup Heth _ _ eq_refl eq_refl).
  rewrite Hpath. cbn [fst snd queries]. unfold generate_batch.
  destruct (Z.to_nat (args_count args)) as [|n] eqn:Hn; [lia|].
  destruct (batch_loop_unreachable n ethnicity
              (Some (gender_of_arg (args_gender args)))
              (negb (args_first_only args)) [] env
              (mkState None (draws st) (queries st)))
    as (st1 & Hrun & _ & Hq).
  { unfold reachable. cbn [_conn]. exact Hdisk. }
  rewrite Hrun. cbn [fst snd]. split; [reflexivity | exact Hq].
Qed.

(** X18.  A count of zero or less generates nothing and is no error:
    [main] prints the formatted empty batch, which is an empty text for
    the formats text and csv (no header line), without a draw, a query or
    a look at the database. *)
Theorem main_nothing_to_generate (args : Args) (env : Env) (st : State)
    (ethnicity : Ethnicity) :
  args_setup args = false ->
  ethnicity_of_arg (args_ethnicity args) = Some ethnicity ->
  (args_count args <= 0)%Z ->
  main json_dumps float_str dict_str args env st =
    (Printed (if (args_format args =? "json")%string then json_dumps []
              else ""),
     mkState None (draws st) (queries st)).
Proof.
  intros Hsetup Heth Hcount.
  rewrite (main_run args env st ethnicity Hsetup Heth _ _ eq_refl eq_refl).
  unfold generate_batch.
  replace (Z.to_nat (args_count args)) with O by lia.
  cbn [batch_loop]. unfold run, ret. cbn [fst snd draws queries].
  unfold format_output.
  destruct (args_format args =? "json")%string; [reflexivity|].
  destruct (args_format args =? "csv")%string; reflexivity.
Qed.

(** X19.  [format_output] has to be told how the batch was built: a
    batch without surnames that is not empty, formatted as text or csv
    without the first-only flag, fails with the KeyError of the key
    full_name. *)
Theorem format_output_flag_mismatch (names : list Dict)
    (output_format : string) :
  names <> [] ->
  Forall (batch_entry false) names ->
  (output_format =? "json")%string = false ->
  format_output json_dumps float_str dict_str names output_format false =
    Failed (KeyError "full_name").
Proof.
  intros Hne Hall Hjson. unfold format_output. rewrite Hjson.
  destruct names as [|entry names']; [congruence|].
  inversion Hall as [|? ? (first & ->) _]; subst.
  destruct (output_format =? "csv")%string; reflexivity.
Qed.

(** X20.  The csv output of a batch formatted with its own flag: nothing
    at all for an empty batch, not even the header; else the header of
    the flag and one row for every entry, in the order of the batch,
    joined by newlines. *)
Theorem format_output_csv_rows (names : list Dict) (first_only : bool) :
  Forall (batch_entry (negb first_only)) names ->
  (names = [] ->
   format_output json_dumps float_str dict_str names "csv" first_only =
     Done "") /\
  (names <> [] ->
   exists rows,
     format_output json_dumps float_str dict_str names "csv" first_only =
       Done (String.concat newline
               ((if first_only then csv_header_first else csv_header_full)
                :: rows)) /\
     Forall2 (fun entry row =>
                (if first_only
                 then csv_row_first float_str dict_str entry
                 else csv_row_full float_str dict_str entry) = Done row)
             names rows).
Proof.
  intro Hall. split; [intros ->; reflexivity|]. intro Hne.
  destruct names as [|n0 names']; [congruence|].
  unfold format_output. cbn [String.eqb Ascii.eqb Bool.eqb is_empty].
  destruct first_only.
  - destruct (for_each_done (csv_row_first float_str dict_str)
                (n0 :: names')) as (rows & Hrows & Hall2).
    { eapply Forall_impl; [|exact Hall]. intros entry (first & ->).
      eexists. reflexivity. }
    exists rows. rewrite Hrows. split; [reflexivity | exact Hall2].
  - destruct (for_each_done (csv_row_full float_str dict_str)
                (n0 :: names')) as (rows & Hrows & Hall2).
    { eapply Forall_impl; [|exact Hall]. intros entry (first & last & ->).
      eexists. reflexivity. }
    exists rows. rewrite Hrows. split; [reflexivity | exact Hall2].
Qed.

End CommandLine.

(** ** The further theorems at work on the sample data *)

Lemma name_request_succeeds_iff_row_qualifies_witness :
  exists r row,
    fst (run (generate_first_name (Some BLACK) (Some MALE) None 0.5)
             (sample_env (fun _ => 0)) initial_state) = Ok r /\
    In row (table_rows sample_first_names) /\
    r = record_of_row true row /\
    qualifies row_prob_black "first_names" (Some (gender_or_any (Some MALE)))
              (Qmin 0.5 0.20) row.
Proof.
  destruct (name_request_succeeds_iff_row_qualifies (Some BLACK) (Some MALE)
              None 0.5 (sample_env (fun _ => 0)) initial_state initial_state
              "black" sample_db row_prob_black
              eq_refl eq_refl eq_refl eq_refl) as [H _].
  destruct (H sample_first_names eq_refl eq_refl) as [Hyes _].
  - intros row Hin. simpl in Hin.
    repeat (destruct Hin as [<- | Hin]; [discriminate|]). destruct Hin.
  - apply Hyes.
    exists (mkRow "Jamal" (Some "M") 4000 0.05 0.85 0.05 0.03 0.02).
    split; [simpl; auto 10|].
    split; [discriminate|].
    intros s Hs. injection Hs as <-. reflexivity.
Defined.

Lemma single_fetch_without_fallback_witness :
  queries (snd (run (generate_first_name (Some BLACK) (Some MALE) None 0.40)
                    (sample_env (fun _ => 0)) initial_state)) =
    (queries initial_state ++
     [fetch_query "first_names" "black" (Some (gender_or_any (Some MALE)))
                  0.40])%list.
Proof.
  destruct (single_fetch_without_fallback (Some BLACK) (Some MALE) None 0.40
              (sample_env (fun _ => 0)) initial_state initial_state "black"
              eq_refl) as [H _].
  assert (H1 : run (_fetch_names "first_names" "black"
                      (Some (gender_or_any (Some MALE))) 0.40)
                   (sample_env (fun _ => 0)) initial_state =
               (Ok [mkNameRecord "Jamal" (Some "M") 4000
                                 0.05 0.85 0.05 0.03 0.02],
                mkState (Some sample_db) 0
                  [fetch_query "first_names" "black" (Some MALE) 0.40]))
    by reflexivity.
  destruct (H _ _ H1) as [Hq _]; [left; discriminate | exact Hq].
Defined.


Lemma main_db_path_attribute_error_witness :
  fst (main (fun _ => "[]") (fun _ => "0.0") (fun _ => "{}")
         (mkArgs 1 "any" "any" false "text" 0.40 false (Some "names.db"))
         (sample_env (fun _ => 0)) initial_state) =
    ErrorExit
      (GeneratorError
         (AttributeError "'str' object has no attribute 'exists'")) false /\
  queries (snd (main (fun _ => "[]") (fun _ => "0.0") (fun _ => "{}")
                  (mkArgs 1 "any" "any" false "text" 0.40 false
                          (Some "names.db"))
                  (sample_env (fun _ => 0)) initial_state)) =
    queries initial_state.
Proof.
  exact (main_db_path_attribute_error (fun _ => "[]") (fun _ => "0.0")
           (fun _ => "{}")
           (mkArgs 1 "any" "any" false "text" 0.40 false (Some "names.db"))
           (sample_env (fun _ => 0)) initial_state ANY "names.db"
           eq_refl eq_refl eq_refl eq_refl).
Defined.

Lemma main_missing_database_witness :
  fst (main (fun _ => "[]") (fun _ => "0.0") (fun _ => "{}")
         (mkArgs 1 "any" "any" false "text" 0.40 false None)
         (mkEnv "data/names.db" None (fun _ => 0)) initial_state) =
    ErrorExit
      (GeneratorError
         (database_not_found (mkEnv "data/names.db" None (fun _ => 0))))
      true /\
  queries (snd (main (fun _ => "[]") (fun _ => "0.0") (fun _ => "{}")
                  (mkArgs 1 "any" "any" false "text" 0.40 false None)
                  (mkEnv "data/names.db" None (fun _ => 0))
                  initial_state)) =
    queries initial_state.
Proof.
  exact (main_missing_database (fun _ => "[]") (fun _ => "0.0")
           (fun _ => "{}")
           (mkArgs 1 "any" "any" false "text" 0.40 false None)
           (mkEnv "data/names.db" None (fun _ => 0)) initial_state ANY
           eq_refl eq_refl eq_refl eq_refl eq_refl).
Defined.

Lemma main_nothing_to_generate_witness :
  main (fun _ => "[]") (fun _ => "0.0") (fun _ => "{}")
       (mkArgs 0 "asian" "m" true "csv" 0.40 false None)
       (mkEnv "data/names.db" None (fun _ => 0)) initial_state =
    (Printed (if ("csv" =? "json")%string then "[]" else ""),
     mkState None (draws initial_state) (queries initial_state)).
Proof.
  exact (main_nothing_to_generate (fun _ => "[]") (fun _ => "0.0")
           (fun _ => "{}")
           (mkArgs 0 "asian" "m" true "csv" 0.40 false None)
           (mkEnv "data/names.db" None (fun _ => 0)) initial_state ASIAN
           eq_refl eq_refl ltac:(discriminate)).
Defined.

Lemma format_output_flag_mismatch_witness :
  format_output (fun _ => "[]") (fun _ => "0.0") (fun _ => "{}")
    [first_name_entry
       (mkNameRecord "Wei" (Some "M") 3000 0.05 0.02 0.03 0.88 0.02)]
    "text" false =
    Failed (KeyError "full_name").
Proof.
  apply format_output_flag_mismatch.
  - discriminate.
  - constructor; [|constructor].
    exists (mkNameRecord "Wei" (Some "M") 3000 0.05 0.02 0.03 0.88 0.02).
    reflexivity.
  - reflexivity.
Defined.

Lemma format_output_csv_rows_witness :
  exists rows,
    format_output (fun _ => "[]") (fun _ => "0.0") (fun _ => "{}")
      [first_name_entry
         (mkNameRecord "Wei" (Some "M") 3000 0.05 0.02 0.03 0.88 0.02)]
      "csv" true =
      Done (String.concat newline (csv_header_first :: rows)) /\
    Forall2 (fun entry row =>
               csv_row_first (fun _ => "0.0") (fun _ => "{}") entry =
                 Done row)
            [first_name_entry
               (mkNameRecord "Wei" (Some "M") 3000 0.05 0.02 0.03 0.88 0.02)]
            rows.
Proof.
  destruct (format_output_csv_rows (fun _ => "[]") (fun _ => "0.0")
              (fun _ => "{}")
              [first_name_entry
                 (mkNameRecord "Wei" (Some "M") 3000
                               0.05 0.02 0.03 0.88 0.02)] true) as [_ H].
  - constructor; [|constructor].
    exists (mkNameRecord "Wei" (Some "M") 3000 0.05 0.02 0.03 0.88 0.02).
    reflexivity.
  - apply H. discriminate.
Defined.
